(** * py7z: command construction and validation around the 7-Zip executable

    A shallow embedding of [py7z/py7z.py].  The three public functions
    [archive_create], [archive_test] and [archive_extract] validate their
    arguments, assemble an argument vector, run the 7-Zip executable once
    and inspect its decoded output.

    Python strings are sequences of Unicode code points, byte strings are
    lists of bytes.  Everything the module obtains from its host (the
    resolved executable path, [os.path], the child process) is a field of a
    [World]; what the functions do to the outside (lines printed on
    [sys.stderr], argument vectors handed to [subprocess.check_output]) is
    recorded in a [Trace]. *)

From Stdlib Require Import List ListSet NArith ZArith Bool Ascii String.
From Stdlib.Strings Require Import Byte.
From Stdlib Require Import DecimalString Lia.
Import ListNotations.

Set Implicit Arguments.

(* ------------------------------------------------------------------ *)
(** ** Python strings *)

Module PyStr.

Definition char := N.
Definition str := list char.
Definition bytes := list byte.

(** A literal of the source, as the code points of its characters. *)
Definition lit (s : string) : str := map N_of_ascii (list_ascii_of_string s).

(** The double-quote character, U+0022. *)
Definition DQUOTE : char := 34%N.

Definition str_eq_dec : forall a b : str, {a = b} + {a <> b} :=
  list_eq_dec N.eq_dec.

Definition str_eqb (a b : str) : bool :=
  if str_eq_dec a b then true else false.

Fixpoint startswith (prefix s : str) : bool :=
  match prefix, s with
  | [], _ => true
  | _ :: _, [] => false
  | a :: prefix', b :: s' => N.eqb a b && startswith prefix' s'
  end.

(** [needle in hay] on strings: substring search. *)
Fixpoint str_in (needle hay : str) : bool :=
  startswith needle hay
  || match hay with
     | [] => false
     | _ :: hay' => str_in needle hay'
     end.

(** [str.isspace] on one code point: the Unicode white space of CPython. *)
Definition isspace (c : char) : bool :=
  ((9 <=? c) && (c <=? 13)
   || (28 <=? c) && (c <=? 32)
   || (c =? 133) || (c =? 160) || (c =? 5760)
   || (8192 <=? c) && (c <=? 8202)
   || (c =? 8232) || (c =? 8233) || (c =? 8239) || (c =? 8287)
   || (c =? 12288))%N.

Fixpoint lstrip (s : str) : str :=
  match s with
  | [] => []
  | c :: s' => if isspace c then lstrip s' else s
  end.

Definition rstrip (s : str) : str := rev (lstrip (rev s)).

(** [s.strip()] *)
Definition strip (s : str) : str := rstrip (lstrip s).

(** [s.split()] with no separator: the maximal runs of non-space
    characters; [word] is the run being read, most recent character first. *)
Fixpoint split_from (word : str) (s : str) : list str :=
  match s with
  | [] => match word with [] => [] | _ => [rev word] end
  | c :: s' =>
      if isspace c
      then match word with
           | [] => split_from [] s'
           | _ => rev word :: split_from [] s'
           end
      else split_from (c :: word) s'
  end.

Definition split (s : str) : list str := split_from [] s.

(** Values of the dynamically typed parameters [verbose] and [overwrite]. *)
Inductive pyval :=
| PNone
| PBool (b : bool)
| PInt (z : Z)
| PStr (s : str).

(** [str(v)], which is what an f-string field [{v}] interpolates. *)
Definition py_str (v : pyval) : str :=
  match v with
  | PNone => lit "None"
  | PBool true => lit "True"
  | PBool false => lit "False"
  | PInt z => lit (NilZero.string_of_int (Z.to_int z))
  | PStr s => s
  end.

(** [a == b] *)
Definition py_eq (a b : pyval) : bool :=
  match a, b with
  | PNone, PNone => true
  | PBool x, PBool y => Bool.eqb x y
  | PBool x, PInt z | PInt z, PBool x => Z.eqb (if x then 1 else 0) z
  | PInt x, PInt y => Z.eqb x y
  | PStr x, PStr y => str_eqb x y
  | _, _ => false
  end.

End PyStr.
Import PyStr.

(* ------------------------------------------------------------------ *)
(** ** The cp1252 codec *)

Module Cp1252.

(** Decoding table of the codec: bytes below 0x80 and from 0xA0 are their
    own code point; 0x80..0x9F map as below, five of them to nothing. *)
Definition decode_byte (b : byte) : option char :=
  let n := Byte.to_N b in
  if (n <? 128)%N then Some n
  else if (160 <=? n)%N then Some n
  else
    match n with
    | 128 => Some 8364 | 130 => Some 8218 | 131 => Some 402
    | 132 => Some 8222 | 133 => Some 8230 | 134 => Some 8224
    | 135 => Some 8225 | 136 => Some 710 | 137 => Some 8240
    | 138 => Some 352 | 139 => Some 8249 | 140 => Some 338
    | 142 => Some 381
    | 145 => Some 8216 | 146 => Some 8217 | 147 => Some 8220
    | 148 => Some 8221 | 149 => Some 8226 | 150 => Some 8211
    | 151 => Some 8212 | 152 => Some 732 | 153 => Some 8482
    | 154 => Some 353 | 155 => Some 8250 | 156 => Some 339
    | 158 => Some 382 | 159 => Some 376
    | _ => None
    end%N.

(** [b.decode('cp1252')]; [None] stands for [UnicodeDecodeError]. *)
Fixpoint decode (b : bytes) : option str :=
  match b with
  | [] => Some []
  | x :: b' =>
      match decode_byte x, decode b' with
      | Some c, Some s => Some (c :: s)
      | _, _ => None
      end
  end.

(** The bytes of an ASCII literal. *)
Definition ascii_bytes (s : string) : bytes := list_byte_of_string s.

End Cp1252.

(* ------------------------------------------------------------------ *)
(** ** Host, exceptions and effects *)

(** What the module reads from its host.  [EXE_PATH] is the module-level
    constant resolved at import; [run] is the child process started by
    [subprocess.check_output]: its exit status and captured standard
    output, as a function of the argument vector. *)
Record World := {
  EXE_PATH : str;
  abspath : str -> str;
  basename : str -> str;
  isdir : str -> bool;
  isfile : str -> bool;
  run : list str -> Z * bytes
}.

Inductive exn :=
| ValueError (arg : str)
| AssertionError (msg : option str)
| NotImplementedError (msg : str)
| CalledProcessError (returncode : Z) (cmd : list str) (output : bytes)
| UnicodeDecodeError (object : bytes).

Inductive result (A : Type) :=
| Return (a : A)
| Raise (e : exn).
Arguments Return {A} a.
Arguments Raise {A} e.

(** Lines written to [sys.stderr] by the module, and the argument vectors
    it has handed to [subprocess.check_output], both oldest first.  An
    empty [spawned] means that no process was asked for. *)
Record Trace := {
  stderr : list str;
  spawned : list (list str)
}.

Definition no_effects : Trace := {| stderr := []; spawned := [] |}.

Module Eff.

Definition M (A : Type) := Trace -> result A * Trace.

Definition ret {A} (a : A) : M A := fun t => (Return a, t).

Definition raise {A} (e : exn) : M A := fun t => (Raise e, t).

Definition bind {A B} (m : M A) (k : A -> M B) : M B :=
  fun t =>
    match m t with
    | (Return a, t') => k a t'
    | (Raise e, t') => (Raise e, t')
    end.

(** [print(line, file=sys.stderr)] *)
Definition print_stderr (line : str) : M unit :=
  fun t => (Return tt, {| stderr := stderr t ++ [line]; spawned := spawned t |}).

(** [assert cond, msg] *)
Definition assert_ (cond : bool) (msg : option str) : M unit :=
  if cond then ret tt else raise (AssertionError msg).

(** [for x in l: body(x)] *)
Fixpoint for_ {A} (l : list A) (body : A -> M unit) : M unit :=
  match l with
  | [] => ret tt
  | x :: l' => bind (body x) (fun _ => for_ l' body)
  end.

End Eff.
Import Eff.

Declare Scope eff_scope.
Delimit Scope eff_scope with eff.
Notation "x <- m ;; k" := (bind m (fun x => k))
  (at level 100, m at next level, right associativity) : eff_scope.
Notation "m ;; k" := (bind m (fun _ => k))
  (at level 100, right associativity) : eff_scope.
Open Scope eff_scope.

(* ------------------------------------------------------------------ *)
(** ** The module *)

Module Py7z.

(** The success marker looked for in the decoded output. *)
Definition MARKER : str := lit "Everything is Ok".

(** The characters refused in the name of the output directory:
    backslash, slash, colon, star, question mark, double quote, angle
    brackets and bar. *)
Definition RESERVED : str := lit "\/:*?" ++ DQUOTE :: lit "<>|".

(** The password used when the caller gives none: the DEL character. *)
Definition DEL : str := [127%N].

(** The dict [seen] of [archive_create]: base name to the set of paths
    having it.  Keys are kept in insertion order, which is the order
    [seen.items()] yields them in.  A set is kept as a duplicate-free list;
    the order in which Python iterates a set is unspecified, and it only
    decides the order of the lines printed for one conflict. *)
Definition seen_dict := list (str * list str).

(** [seen.setdefault(key, set()).add(item)] *)
Fixpoint setdefault_add (key item : str) (seen : seen_dict) : seen_dict :=
  match seen with
  | [] => [(key, [item])]
  | (k, items) :: seen' =>
      if str_eqb k key
      then (k, set_add str_eq_dec item items) :: seen'
      else (k, items) :: setdefault_add key item seen'
  end.

Section Host.

Variable w : World.

(** [subprocess.check_output(command)]: the vector is handed over, the
    process is started and waited for; a non-zero exit status raises
    [CalledProcessError], else the captured output is given.  The launch
    itself is taken to succeed: [run] is what the child does once started.
    A vector that [subprocess] refuses before it starts anything (an
    argument holding U+0000) and an executable that the host cannot start
    are not described; the statements below that conclude from [spawned]
    speak of the vector handed over. *)
Definition check_output (command : list str) : M bytes :=
  fun t =>
    let t' := {| stderr := stderr t; spawned := spawned t ++ [command] |} in
    let (returncode, output) := run w command in
    if Z.eqb returncode 0
    then (Return output, t')
    else (Raise (CalledProcessError returncode command output), t').

(** [b.decode('cp1252')] *)
Definition decode_cp1252 (b : bytes) : M str :=
  match Cp1252.decode b with
  | Some s => ret s
  | None => raise (UnicodeDecodeError b)
  end.

(** The last three statements of each of the three functions. *)
Definition invoke (command : list str) : M str :=
  out <- check_output command ;;
  ret_val <- decode_cp1252 out ;;
  assert_ (str_in MARKER ret_val)
          (Some (lit "something went wrong: " ++ ret_val)) ;;
  ret ret_val.

Definition archive_create (files_and_folders : list str) (archive : str)
    (password : option str) (encrypt_headers overwrite : bool)
    (verbose : pyval) (volumes : option str) : M str :=
  let archive_path := abspath w archive in
  let todo_paths := map (abspath w) files_and_folders in
  let seen :=
    fold_left (fun seen item_path =>
                 setdefault_add (basename w item_path) item_path seen)
              files_and_folders [] in
  for_ seen (fun '(item_name, item_paths) =>
    if (1 <? List.length item_paths)%nat
    then
      print_stderr (lit "multiple items with same filename added to archive: <"
                    ++ item_name ++ lit ">") ;;
      for_ item_paths (fun item_path =>
        print_stderr (lit "<" ++ item_path ++ lit ">")) ;;
      raise (ValueError item_name)
    else ret tt) ;;
  assert_ (negb (isdir w archive_path))
          (Some (lit "dir already exists at output path")) ;;
  assert_ (overwrite || negb (isfile w archive_path))
          (Some (lit "file already exists at output path")) ;;
  let command := [EXE_PATH w;
                  lit "a";
                  archive_path;
                  lit "-t7z";
                  lit "-m0=lzma2";
                  lit "-mx=9";
                  lit "-bb" ++ py_str verbose;
                  lit "-bt"] in
  let command := if overwrite then command ++ [lit "-aoa"] else command in
  command <-
    match volumes with
    | Some volumes =>
        assert_ (0 <? List.length volumes)%nat None ;;
        ret (fold_left (fun command size => command ++ [lit "-v" ++ size])
                       (split (strip volumes)) command)
    | None => ret command
    end ;;
  command <-
    match password with
    | Some password =>
        assert_ (0 <? List.length password)%nat
                (Some (lit "password must be at least one character long")) ;;
        (if str_in [DQUOTE] password
         then raise (NotImplementedError (lit "double-quote not supported"))
         else ret tt) ;;
        let command := command ++ [lit "-p" ++ password] in
        ret (if encrypt_headers then command ++ [lit "-mhe"] else command)
    | None => ret command
    end ;;
  let command := command ++ todo_paths in
  invoke command.

Definition archive_test (archive : str) (password : option str)
    (verbose : pyval) : M str :=
  let archive_path := abspath w archive in
  let password := match password with None => DEL | Some p => p end in
  assert_ (0 <? List.length password)%nat
          (Some (lit "password must be at least one character long")) ;;
  (if str_in [DQUOTE] password
   then raise (NotImplementedError (lit "double-quote not supported"))
   else ret tt) ;;
  let command := [EXE_PATH w;
                  lit "t";
                  archive_path;
                  lit "-p" ++ password;
                  lit "-bb" ++ py_str verbose;
                  lit "-bt"] in
  invoke command.

Definition archive_extract (archive : str) (into_dir password : option str)
    (flat : bool) (overwrite verbose : pyval) : M str :=
  let archive_path := abspath w archive in
  assert_ (isfile w archive_path)
          (Some (lit "archive does not exist at provided path")) ;;
  let password := match password with None => DEL | Some p => p end in
  assert_ (0 <? List.length password)%nat
          (Some (lit "password must be at least one character long")) ;;
  let into_dir := match into_dir with None => lit "." | Some d => d end in
  let into_dir := abspath w (strip into_dir) in
  assert_ (0 <? List.length into_dir)%nat
          (Some (lit "output dir name must be at least one character long")) ;;
  assert_ (forallb (fun char => negb (str_in [char] (basename w into_dir)))
                   RESERVED)
          (Some (lit "invalid dir name")) ;;
  assert_ (negb (isfile w into_dir))
          (Some (lit "file exists at output dir location, cannot create folder")) ;;
  (if str_in [DQUOTE] password
   then raise (NotImplementedError (lit "double-quote not supported"))
   else ret tt) ;;
  let overwrite :=
    match overwrite with
    | PBool true => PStr (lit "a")
    | PBool false => PStr (lit "s")
    | _ => overwrite
    end in
  assert_ (existsb (py_eq overwrite)
                   [PStr (lit "a"); PStr (lit "s"); PStr (lit "u"); PStr (lit "t")])
          None ;;
  let command := [EXE_PATH w;
                  (if flat then lit "e" else lit "x");
                  lit "-o" ++ into_dir;
                  lit "-p" ++ password;
                  lit "-ao" ++ py_str overwrite;
                  lit "-bb" ++ py_str verbose;
                  lit "-bt";
                  archive_path] in
  invoke command.

End Host.

End Py7z.

Import Py7z.

(* ------------------------------------------------------------------ *)
(** ** Calls *)

(** One call of one of the three public functions, with its arguments in
    the order of the signature. *)
Inductive call :=
| Create (files_and_folders : list str) (archive : str)
         (password : option str) (encrypt_headers overwrite : bool)
         (verbose : pyval) (volumes : option str)
| Test (archive : str) (password : option str) (verbose : pyval)
| Extract (archive : str) (into_dir password : option str) (flat : bool)
          (overwrite verbose : pyval).

Definition exec (w : World) (c : call) : M str :=
  match c with
  | Create files archive password encrypt_headers overwrite verbose volumes =>
      archive_create w files archive password encrypt_headers overwrite
                     verbose volumes
  | Test archive password verbose => archive_test w archive password verbose
  | Extract archive into_dir password flat overwrite verbose =>
      archive_extract w archive into_dir password flat overwrite verbose
  end.

(** Outcome and effects of a call made with nothing printed or started
    before it. *)
Definition outcome (w : World) (c : call) : result str := fst (exec w c no_effects).
Definition effects (w : World) (c : call) : Trace := snd (exec w c no_effects).

Definition password_of (c : call) : option str :=
  match c with
  | Create _ _ password _ _ _ _ => password
  | Test _ password _ => password
  | Extract _ _ password _ _ _ => password
  end.

Definition verbose_of (c : call) : pyval :=
  match c with
  | Create _ _ _ _ _ verbose _ => verbose
  | Test _ _ verbose => verbose
  | Extract _ _ _ _ _ verbose => verbose
  end.

Definition with_verbose (v : pyval) (c : call) : call :=
  match c with
  | Create files archive password encrypt_headers overwrite _ volumes =>
      Create files archive password encrypt_headers overwrite v volumes
  | Test archive password _ => Test archive password v
  | Extract archive into_dir password flat overwrite _ =>
      Extract archive into_dir password flat overwrite v
  end.

(* ------------------------------------------------------------------ *)
(** ** A POSIX host

    [posixpath] as the host's [os.path], a file system given by the lists
    of its regular files and of its directories, and a child process
    given by a function.  Used for the concrete runs below. *)

Module Posix.

Definition SLASH : char := 47%N.

(** [s.split(sep)] for a one-character separator. *)
Fixpoint split_on (sep : char) (s : str) : list str :=
  match s with
  | [] => [[]]
  | c :: s' =>
      if N.eqb c sep then [] :: split_on sep s'
      else match split_on sep s' with
           | [] => [[c]]
           | x :: r => (c :: x) :: r
           end
  end.

(** [sep.join(l)] *)
Fixpoint join_with (sep : str) (l : list str) : str :=
  match l with
  | [] => []
  | [x] => x
  | x :: l' => x ++ sep ++ join_with sep l'
  end.

(** [posixpath.basename]: what follows the last slash. *)
Definition basename (p : str) : str := last (split_on SLASH p) [].

(** [posixpath.join(a, b)] *)
Definition join (a b : str) : str :=
  if startswith [SLASH] b then b
  else if (match a with [] => true | _ => false end)
          || N.eqb (last a 0%N) SLASH
       then a ++ b
       else a ++ SLASH :: b.

(** One round of the loop of [posixpath.normpath]; [new_comps] is kept
    last component first. *)
Definition norm_step (initial_slashes : nat) (new_comps : list str)
    (comp : str) : list str :=
  if str_eqb comp [] || str_eqb comp (lit ".") then new_comps
  else if negb (str_eqb comp (lit ".."))
          || (Nat.eqb initial_slashes 0
              && match new_comps with [] => true | _ => false end)
          || match new_comps with
             | top :: _ => str_eqb top (lit "..")
             | [] => false
             end
       then comp :: new_comps
       else tl new_comps.

(** [posixpath.normpath] *)
Definition normpath (path : str) : str :=
  match path with
  | [] => lit "."
  | _ =>
      let initial_slashes :=
        if startswith [SLASH] path
        then if startswith [SLASH; SLASH] path
                && negb (startswith [SLASH; SLASH; SLASH] path)
             then 2%nat else 1%nat
        else 0%nat in
      let comps :=
        rev (fold_left (norm_step initial_slashes) (split_on SLASH path) []) in
      let path := repeat SLASH initial_slashes ++ join_with [SLASH] comps in
      match path with
      | [] => lit "."
      | _ => path
      end
  end.

(** [posixpath.abspath] with the current directory [cwd]. *)
Definition abspath (cwd path : str) : str :=
  normpath (if startswith [SLASH] path then path else join cwd path).

Definition mem (p : str) (l : list str) : bool := existsb (str_eqb p) l.

Definition world (cwd : str) (files dirs : list str)
    (child : list str -> Z * bytes) : World :=
  Build_World (lit "/opt/py7z/7-zip/x64/7z.exe")
              (abspath cwd)
              basename
              (fun p => mem p dirs)
              (fun p => mem p files)
              child.

(** A child that always exits with [status] after writing [output]. *)
Definition child_const (status : Z) (output : string) : list str -> Z * bytes :=
  fun _ => (status, Cp1252.ascii_bytes output).

End Posix.

(* ------------------------------------------------------------------ *)
(** ** A sample host *)

Module Sample.

Definition home : str := lit "/home/u".

(** A POSIX host with the archive [/home/u/test.7z], the directory
    [/home/u/out] and the current directory [/home/u]. *)
Definition host (child : list str -> Z * bytes) : World :=
  Posix.world home [lit "/home/u/test.7z"] [home; lit "/home/u/out"] child.

(** 7-Zip reporting success, then a child that reports success although
    it exits with status 1, and one that reports nothing. *)
Definition ok : list str -> Z * bytes :=
  Posix.child_const 0 "Everything is Ok".

Definition ok_but_status_1 : list str -> Z * bytes :=
  Posix.child_const 1 "Everything is Ok".

Definition silent : list str -> Z * bytes :=
  Posix.child_const 0 "".

End Sample.

(* ------------------------------------------------------------------ *)
(** ** Vocabulary of the statements *)

Section SeenSpec.

Variable w : World.

(** [seen.get(key)] *)
Fixpoint lookup (key : str) (seen : seen_dict) : option (list str) :=
  match seen with
  | [] => None
  | (k, items) :: seen' =>
      if str_eqb k key then Some items else lookup key seen'
  end.

(** What [seen] holds once the paths [done] have been entered. *)
Definition seen_inv (seen : seen_dict) (done : list str) : Prop :=
  (forall k items, In (k, items) seen ->
     NoDup items /\ forall p, In p items -> In p done /\ basename w p = k)
  /\ (forall p, In p done ->
        exists items, lookup (basename w p) seen = Some items /\ In p items).

(** Two different paths of the list have the base name [name]. *)
Definition conflict (files : list str) (name : str) : Prop :=
  exists p q, In p files /\ In q files /\ p <> q
              /\ basename w p = name /\ basename w q = name.

(** No two different paths of the list have the same base name. *)
Definition unique_basenames (files : list str) : Prop :=
  forall p q, In p files -> In q files ->
              basename w p = basename w q -> p = q.

End SeenSpec.

(** [unique_basenames] as a computation. *)
Definition unique_basenamesb (w : World) (files : list str) : bool :=
  forallb (fun p =>
             forallb (fun q => negb (str_eqb (basename w p) (basename w q))
                               || str_eqb p q)
                     files)
          files.

(** The lines [archive_create] prints for a conflict: one for the base
    name, then one for each path that has it. *)
Definition conflict_header (name : str) : str :=
  lit "multiple items with same filename added to archive: <" ++ name ++ lit ">".

Definition bracketed (path : str) : str := lit "<" ++ path ++ lit ">".

Section Verdict.

Variable w : World.

(** What the call gives once the process has been run: the verdict on the
    exit status and the captured output. *)
Definition verdict (command : list str) : result str :=
  let (returncode, output) := run w command in
  if Z.eqb returncode 0
  then match Cp1252.decode output with
       | Some text =>
           if str_in MARKER text then Return text
           else Raise (AssertionError (Some (lit "something went wrong: " ++ text)))
       | None => Raise (UnicodeDecodeError output)
       end
  else Raise (CalledProcessError returncode command output).

End Verdict.

(** *** The cases of each function

    For each function, the list of the ways a call can go, each with the
    conditions on the arguments and on the host under which it goes that
    way.  A call is taken as a function of [verbose], the one argument no
    condition mentions. *)

(** A password that passes the two checks made on it. *)
Definition password_ok (password : option str) : Prop :=
  forall p, password = Some p -> p <> [] /\ str_in [DQUOTE] p = false.

(** The password handed to 7-Zip by [archive_test] and [archive_extract]. *)
Definition password_or_del (password : option str) : str :=
  match password with None => DEL | Some p => p end.

(** The four mode codes of 7-Zip's [-ao] switch. *)
Definition MODES : list str := [lit "a"; lit "s"; lit "u"; lit "t"].

(** The mode code an [overwrite] argument stands for, if any. *)
Definition overwrite_code (overwrite : pyval) : option str :=
  match overwrite with
  | PBool true => Some (lit "a")
  | PBool false => Some (lit "s")
  | PStr s => if existsb (str_eqb s) MODES then Some s else None
  | _ => None
  end.

(** A value of [overwrite] that is neither a boolean nor one of the four
    mode codes. *)
Definition other_value (overwrite : pyval) : Prop :=
  (forall b, overwrite <> PBool b)
  /\ (forall code, In code MODES -> overwrite <> PStr code).

(** An accepted value of [overwrite] with the mode code it stands for. *)
Definition accepted (overwrite : pyval) (code : str) : Prop :=
  (overwrite = PBool true /\ code = lit "a")
  \/ (overwrite = PBool false /\ code = lit "s")
  \/ (overwrite = PStr code /\ In code MODES).

Section CreateSpec.

Variables (w : World) (files : list str) (archive : str)
          (password : option str) (encrypt_headers overwrite : bool)
          (volumes : option str).

(** The checks of [archive_create] that come before those on the
    password. *)
Definition create_checks : Prop :=
  unique_basenames w files
  /\ isdir w (abspath w archive) = false
  /\ (overwrite = true \/ isfile w (abspath w archive) = false)
  /\ volumes <> Some [].

(** The argument vector of a call that passes every check. *)
Definition create_command (verbose : pyval) : list str :=
  [EXE_PATH w; lit "a"; abspath w archive;
   lit "-t7z"; lit "-m0=lzma2"; lit "-mx=9";
   lit "-bb" ++ py_str verbose; lit "-bt"]
  ++ (if overwrite then [lit "-aoa"] else [])
  ++ match volumes with
     | Some v => map (fun size => lit "-v" ++ size) (split (strip v))
     | None => []
     end
  ++ match password with
     | Some p => (lit "-p" ++ p) :: (if encrypt_headers then [lit "-mhe"] else [])
     | None => []
     end
  ++ map (abspath w) files.

Inductive create_case (f : pyval -> result str * Trace) : Prop :=
| create_conflict name items :
    conflict w files name ->
    (forall verbose,
       f verbose = (Raise (ValueError name),
                    {| stderr := conflict_header name :: map bracketed items;
                       spawned := [] |})) ->
    create_case f
| create_dir_exists :
    unique_basenames w files ->
    isdir w (abspath w archive) = true ->
    (forall verbose,
       f verbose = (Raise (AssertionError
                             (Some (lit "dir already exists at output path"))),
                    no_effects)) ->
    create_case f
| create_file_exists :
    unique_basenames w files ->
    isdir w (abspath w archive) = false ->
    overwrite = false ->
    isfile w (abspath w archive) = true ->
    (forall verbose,
       f verbose = (Raise (AssertionError
                             (Some (lit "file already exists at output path"))),
                    no_effects)) ->
    create_case f
| create_volumes_empty :
    unique_basenames w files ->
    isdir w (abspath w archive) = false ->
    (overwrite = true \/ isfile w (abspath w archive) = false) ->
    volumes = Some [] ->
    (forall verbose, f verbose = (Raise (AssertionError None), no_effects)) ->
    create_case f
| create_password_empty :
    create_checks ->
    password = Some [] ->
    (forall verbose,
       f verbose = (Raise (AssertionError
                             (Some (lit "password must be at least one character long"))),
                    no_effects)) ->
    create_case f
| create_password_quote p :
    create_checks ->
    password = Some p -> p <> [] -> str_in [DQUOTE] p = true ->
    (forall verbose,
       f verbose = (Raise (NotImplementedError (lit "double-quote not supported")),
                    no_effects)) ->
    create_case f
| create_runs :
    create_checks ->
    password_ok password ->
    (forall verbose, f verbose = invoke w (create_command verbose) no_effects) ->
    create_case f.

End CreateSpec.

Section TestSpec.

Variables (w : World) (archive : str) (password : option str).

(** The argument vector of a call that passes every check. *)
Definition test_command (verbose : pyval) : list str :=
  [EXE_PATH w; lit "t"; abspath w archive;
   lit "-p" ++ password_or_del password;
   lit "-bb" ++ py_str verbose; lit "-bt"].

Inductive test_case (f : pyval -> result str * Trace) : Prop :=
| test_password_empty :
    password = Some [] ->
    (forall verbose,
       f verbose = (Raise (AssertionError
                             (Some (lit "password must be at least one character long"))),
                    no_effects)) ->
    test_case f
| test_password_quote p :
    password = Some p -> p <> [] -> str_in [DQUOTE] p = true ->
    (forall verbose,
       f verbose = (Raise (NotImplementedError (lit "double-quote not supported")),
                    no_effects)) ->
    test_case f
| test_runs :
    password_ok password ->
    (forall verbose, f verbose = invoke w (test_command verbose) no_effects) ->
    test_case f.

End TestSpec.

Section ExtractSpec.

Variables (w : World) (archive : str) (into_dir password : option str)
          (flat : bool) (overwrite : pyval).

(** The output directory after defaulting, stripping and [abspath]. *)
Definition extract_dest : str :=
  abspath w (strip (match into_dir with None => lit "." | Some d => d end)).

(** The checks of [archive_extract] that come before the one on the
    double quote. *)
Definition extract_checks : Prop :=
  isfile w (abspath w archive) = true
  /\ password <> Some []
  /\ extract_dest <> []
  /\ (forall c, In c RESERVED -> ~ In c (basename w extract_dest))
  /\ isfile w extract_dest = false.

(** The argument vector of a call that passes every check, [code] being
    the overwrite mode. *)
Definition extract_command (code : str) (verbose : pyval) : list str :=
  [EXE_PATH w; (if flat then lit "e" else lit "x");
   lit "-o" ++ extract_dest;
   lit "-p" ++ password_or_del password;
   lit "-ao" ++ code;
   lit "-bb" ++ py_str verbose; lit "-bt";
   abspath w archive].

Inductive extract_case (f : pyval -> result str * Trace) : Prop :=
| extract_no_archive :
    isfile w (abspath w archive) = false ->
    (forall verbose,
       f verbose = (Raise (AssertionError
                             (Some (lit "archive does not exist at provided path"))),
                    no_effects)) ->
    extract_case f
| extract_password_empty :
    isfile w (abspath w archive) = true ->
    password = Some [] ->
    (forall verbose,
       f verbose = (Raise (AssertionError
                             (Some (lit "password must be at least one character long"))),
                    no_effects)) ->
    extract_case f
| extract_dest_empty :
    isfile w (abspath w archive) = true ->
    password <> Some [] ->
    extract_dest = [] ->
    (forall verbose,
       f verbose = (Raise (AssertionError
                             (Some (lit "output dir name must be at least one character long"))),
                    no_effects)) ->
    extract_case f
| extract_dest_reserved c :
    isfile w (abspath w archive) = true ->
    password <> Some [] ->
    extract_dest <> [] ->
    In c RESERVED -> In c (basename w extract_dest) ->
    (forall verbose,
       f verbose = (Raise (AssertionError (Some (lit "invalid dir name"))),
                    no_effects)) ->
    extract_case f
| extract_dest_is_file :
    isfile w (abspath w archive) = true ->
    password <> Some [] ->
    extract_dest <> [] ->
    (forall c, In c RESERVED -> ~ In c (basename w extract_dest)) ->
    isfile w extract_dest = true ->
    (forall verbose,
       f verbose = (Raise (AssertionError
                             (Some (lit "file exists at output dir location, cannot create folder"))),
                    no_effects)) ->
    extract_case f
| extract_password_quote p :
    extract_checks ->
    password = Some p -> str_in [DQUOTE] p = true ->
    (forall verbose,
       f verbose = (Raise (NotImplementedError (lit "double-quote not supported")),
                    no_effects)) ->
    extract_case f
| extract_bad_overwrite :
    extract_checks ->
    password_ok password ->
    overwrite_code overwrite = None ->
    (forall verbose, f verbose = (Raise (AssertionError None), no_effects)) ->
    extract_case f
| extract_runs code :
    extract_checks ->
    password_ok password ->
    overwrite_code overwrite = Some code ->
    (forall verbose, f verbose = invoke w (extract_command code verbose) no_effects) ->
    extract_case f.

End ExtractSpec.

(** The errors raised for bad caller input: a naming conflict, a failed
    check, an unsupported password. *)
Definition validation_error (e : exn) : Prop :=
  match e with
  | ValueError _ | AssertionError _ | NotImplementedError _ => True
  | CalledProcessError _ _ _ | UnicodeDecodeError _ => False
  end.

(** Where the verbosity flag stands in the argument vector of a call. *)
Definition flag_index (c : call) : nat :=
  match c with
  | Create _ _ _ _ _ _ _ => 6
  | Test _ _ _ => 4
  | Extract _ _ _ _ _ _ => 5
  end.

(** The checks a call makes before it looks for a double quote in the
    password. *)
Definition earlier_checks (w : World) (c : call) : Prop :=
  match c with
  | Create files archive _ _ overwrite _ volumes =>
      create_checks w files archive overwrite volumes
  | Test _ _ _ => True
  | Extract archive into_dir password _ _ _ =>
      extract_checks w archive into_dir password
  end.

(** The error of the first of those checks that fails, with the
    conditions under which it is the first. *)
Definition earlier_failure (w : World) (c : call) (e : exn) : Prop :=
  match c with
  | Create files archive _ _ overwrite _ volumes =>
      (exists name, conflict w files name /\ e = ValueError name)
      \/ (unique_basenames w files
          /\ isdir w (abspath w archive) = true
          /\ e = AssertionError (Some (lit "dir already exists at output path")))
      \/ (unique_basenames w files
          /\ isdir w (abspath w archive) = false
          /\ overwrite = false /\ isfile w (abspath w archive) = true
          /\ e = AssertionError (Some (lit "file already exists at output path")))
      \/ (unique_basenames w files
          /\ isdir w (abspath w archive) = false
          /\ (overwrite = true \/ isfile w (abspath w archive) = false)
          /\ volumes = Some []
          /\ e = AssertionError None)
  | Test _ _ _ => False
  | Extract archive into_dir password _ _ _ =>
      (isfile w (abspath w archive) = false
       /\ e = AssertionError
               (Some (lit "archive does not exist at provided path")))
      \/ (isfile w (abspath w archive) = true
          /\ password = Some []
          /\ e = AssertionError
                  (Some (lit "password must be at least one character long")))
      \/ (isfile w (abspath w archive) = true
          /\ password <> Some []
          /\ extract_dest w into_dir = []
          /\ e = AssertionError
                  (Some (lit "output dir name must be at least one character long")))
      \/ (isfile w (abspath w archive) = true
          /\ password <> Some []
          /\ extract_dest w into_dir <> []
          /\ (exists ch, In ch RESERVED
                         /\ In ch (basename w (extract_dest w into_dir)))
          /\ e = AssertionError (Some (lit "invalid dir name")))
      \/ (isfile w (abspath w archive) = true
          /\ password <> Some []
          /\ extract_dest w into_dir <> []
          /\ (forall ch, In ch RESERVED ->
                         ~ In ch (basename w (extract_dest w into_dir)))
          /\ isfile w (extract_dest w into_dir) = true
          /\ e = AssertionError
                  (Some (lit "file exists at output dir location, cannot create folder")))
  end.

(** The checks of a call, all of them; none looks at [verbose]. *)
Definition passes_checks (w : World) (c : call) : Prop :=
  match c with
  | Create files archive password _ overwrite _ volumes =>
      create_checks w files archive overwrite volumes /\ password_ok password
  | Test _ password _ => password_ok password
  | Extract archive into_dir password _ overwrite _ =>
      extract_checks w archive into_dir password
      /\ password_ok password
      /\ exists code, accepted overwrite code
  end.

(* ------------------------------------------------------------------ *)
(** ** Importing the module

    The statements run when the module is imported: they find out the
    word size of the host and settle [EXE_PATH]. *)

Module Init.

(** What the import reads from its host: [sys.maxsize], [__file__] and the
    functions of [os.path] it calls. *)
Record Host := {
  maxsize : Z;
  module_file : str;
  dirname : str -> str;
  join : str -> str -> str;
  abspath : str -> str;
  exists_ : str -> bool
}.

(** How the import ends: with [EXE_PATH] bound, or with the [OSError] or
    the [AssertionError] the module raises. *)
Inductive import_result :=
| Imported (EXE_PATH : str)
| RaisedOSError (msg : str)
| RaisedAssertionError (msg : str).

(** [n.bit_length()] *)
Definition bit_length (n : Z) : Z :=
  if Z.eqb n 0 then 0 else Z.log2 (Z.abs n) + 1.

Definition import_module (h : Host) : import_result :=
  let SYS_BITS := (bit_length (maxsize h) + 1)%Z in
  if negb (existsb (Z.eqb SYS_BITS) [32; 64]%Z)
  then RaisedOSError
         (lit "could not determine if system is 32-bit or 64-bit: "
          ++ py_str (PInt SYS_BITS))
  else
    let EXE_PATH :=
      if Z.eqb SYS_BITS 64
      then abspath h (join h (dirname h (module_file h)) (lit "7-zip/x64/7z.exe"))
      else [] in
    let EXE_PATH :=
      if negb (exists_ h EXE_PATH)
      then abspath h (join h (dirname h (module_file h)) (lit "7-zip/x32/7z.exe"))
      else EXE_PATH in
    if exists_ h EXE_PATH
    then Imported EXE_PATH
    else RaisedAssertionError (lit "could not find 7-zip executable").

(** The two places the executable is looked for at. *)
Definition x64_path (h : Host) : str :=
  abspath h (join h (dirname h (module_file h)) (lit "7-zip/x64/7z.exe")).

Definition x32_path (h : Host) : str :=
  abspath h (join h (dirname h (module_file h)) (lit "7-zip/x32/7z.exe")).

(** [posixpath.dirname] *)
Fixpoint upto_last_slash (p : str) : str :=
  match p with
  | [] => []
  | c :: p' =>
      if existsb (N.eqb Posix.SLASH) p' then c :: upto_last_slash p'
      else if N.eqb c Posix.SLASH then [c] else []
  end.

Fixpoint drop_slashes (s : str) : str :=
  match s with
  | [] => []
  | c :: s' => if N.eqb c Posix.SLASH then drop_slashes s' else s
  end.

Definition posix_dirname (p : str) : str :=
  let head := upto_last_slash p in
  if forallb (N.eqb Posix.SLASH) head then head
  else rev (drop_slashes (rev head)).

(** A POSIX host of [bits] bits, with the module in [/opt/py7z] and the
    files [present]. *)
Definition posix_host (bits : Z) (present : list str) : Host :=
  {| maxsize := 2 ^ (bits - 1) - 1;
     module_file := lit "/opt/py7z/py7z.py";
     dirname := posix_dirname;
     join := Posix.join;
     abspath := Posix.abspath (lit "/home/u");
     exists_ := fun p => Posix.mem p present |}.

End Init.

(* ------------------------------------------------------------------ *)
(** ** More vocabulary *)

(** [needle in hay] on byte strings. *)
Fixpoint bytes_startswith (prefix b : bytes) : bool :=
  match prefix, b with
  | [], _ => true
  | _ :: _, [] => false
  | x :: prefix', y :: b' =>
      N.eqb (Byte.to_N x) (Byte.to_N y) && bytes_startswith prefix' b'
  end.

Fixpoint bytes_in (needle hay : bytes) : bool :=
  bytes_startswith needle hay
  || match hay with
     | [] => false
     | _ :: hay' => bytes_in needle hay'
     end.

(** The bytes cp1252 gives no character to. *)
Definition undecodable (b : byte) : Prop :=
  In (Byte.to_N b) [129; 141; 143; 144; 157]%N.

(** The 7-Zip command a call asks for. *)
Definition command_letter (c : call) : str :=
  match c with
  | Create _ _ _ _ _ _ _ => lit "a"
  | Test _ _ _ => lit "t"
  | Extract _ _ _ flat _ _ => if flat then lit "e" else lit "x"
  end.

(** The checks a call makes before it looks at the length of the
    password. *)
Definition checks_before_password (w : World) (c : call) : Prop :=
  match c with
  | Create files archive _ _ overwrite _ volumes =>
      create_checks w files archive overwrite volumes
  | Test _ _ _ => True
  | Extract archive _ _ _ _ _ => isfile w (abspath w archive) = true
  end.


(* ------------------------------------------------------------------ *)
(** ** Sample runs *)

Example posix_abspath_relative :
  Posix.abspath (lit "/home/u") (lit "out/../x.7z") = lit "/home/u/x.7z".
Proof. reflexivity. Qed.

Example posix_abspath_empty :
  Posix.abspath (lit "/home/u") [] = lit "/home/u".
Proof. reflexivity. Qed.

Example posix_basename_nested :
  Posix.basename (lit "/home/u/a:b") = lit "a:b".
Proof. reflexivity. Qed.

Example split_volumes :
  split (strip (lit " 10k  15k 2m ")) = [lit "10k"; lit "15k"; lit "2m"].
Proof. reflexivity. Qed.

Example py_str_int : py_str (PInt (-12)) = lit "-12" /\ py_str (PInt 0) = lit "0".
Proof. split; reflexivity. Qed.

(* ------------------------------------------------------------------ *)
(** ** Strings: basic facts *)

Lemma str_eqb_eq (a b : str) : str_eqb a b = true <-> a = b.
Proof.
  unfold str_eqb. destruct (str_eq_dec a b); split; congruence.
Qed.

Lemma str_eqb_refl (a : str) : str_eqb a a = true.
Proof. now apply str_eqb_eq. Qed.

Lemma str_eqb_neq (a b : str) : str_eqb a b = false <-> a <> b.
Proof.
  unfold str_eqb. destruct (str_eq_dec a b); split; congruence.
Qed.

(** Looking for a single character is list membership. *)
Lemma str_in_char (c : char) (s : str) :
  str_in [c] s = true <-> In c s.
Proof.
  induction s as [|x s IH]; simpl.
  - split; [discriminate | tauto].
  - rewrite orb_true_iff, IH, andb_true_r, N.eqb_eq. intuition congruence.
Qed.

Lemma length_pos (A : Type) (l : list A) :
  (0 <? List.length l)%nat = true <-> l <> [].
Proof.
  destruct l; simpl; split; intros H; try discriminate; try reflexivity.
  now contradiction H.
Qed.

(** Appending one flag per token, as the loop over the volume sizes does. *)
Lemma fold_left_snoc (A B : Type) (f : B -> A) (l : list B) (acc : list A) :
  fold_left (fun acc x => acc ++ [f x]) l acc = acc ++ map f l.
Proof.
  revert acc. induction l as [|x l IH]; intros acc; simpl.
  - now rewrite app_nil_r.
  - rewrite IH, <- app_assoc. reflexivity.
Qed.

(** The tokens of [split] are non-empty and free of white space. *)
Lemma split_from_tokens (s word : str) :
  forallb (fun c => negb (isspace c)) word = true ->
  forall tok, In tok (split_from word s) ->
    tok <> [] /\ forallb (fun c => negb (isspace c)) tok = true.
Proof.
  revert word. induction s as [|c s IH]; intros word Hw tok Hin; simpl in Hin.
  - destruct word as [|x word]; [contradiction|].
    destruct Hin as [<-|[]]. split.
    + intros E. apply (f_equal (@List.length _)) in E.
      rewrite length_rev in E. discriminate.
    + rewrite forallb_forall in *. intros y Hy. apply Hw.
      now apply in_rev.
  - destruct (isspace c) eqn:Hc.
    + destruct word as [|x word].
      * now apply (IH []).
      * destruct Hin as [<-|Hin]; [|now apply (IH [])].
        split.
        -- intros E. apply (f_equal (@List.length _)) in E.
           rewrite length_rev in E. discriminate.
        -- rewrite forallb_forall in *. intros y Hy. apply Hw.
           now apply in_rev.
    + apply (IH (c :: word)); [|assumption].
      simpl. now rewrite Hc.
Qed.

Lemma split_tokens (s tok : str) :
  In tok (split s) ->
  tok <> [] /\ forallb (fun c => negb (isspace c)) tok = true.
Proof. now apply split_from_tokens. Qed.

(* ------------------------------------------------------------------ *)
(** ** The dict of base names *)

Section Seen.

Variable w : World.

Local Abbreviation seen_inv := (seen_inv w).
Local Abbreviation conflict := (conflict w).
Local Abbreviation unique_basenames := (unique_basenames w).

Lemma lookup_In (key : str) (seen : seen_dict) (items : list str) :
  lookup key seen = Some items -> In (key, items) seen.
Proof.
  induction seen as [|[k v] seen IH]; simpl; [discriminate|].
  destruct (str_eqb k key) eqn:E.
  - apply str_eqb_eq in E. intros [= ->]. left. now subst.
  - intros H. right. now apply IH.
Qed.

Lemma lookup_setdefault_add (k key item : str) (seen : seen_dict) :
  lookup k (setdefault_add key item seen) =
  if str_eqb key k
  then Some (set_add str_eq_dec item
                     (match lookup key seen with Some v => v | None => [] end))
  else lookup k seen.
Proof.
  induction seen as [|[k0 v0] seen IH]; simpl.
  - reflexivity.
  - destruct (str_eqb k0 key) eqn:E0; simpl.
    + apply str_eqb_eq in E0. subst k0.
      destruct (str_eqb key k); reflexivity.
    + destruct (str_eqb k0 k) eqn:E1.
      * apply str_eqb_eq in E1. subst k0.
        destruct (str_eqb key k) eqn:E2; [|reflexivity].
        apply str_eqb_eq in E2. subst key. now rewrite str_eqb_refl in E0.
      * exact IH.
Qed.

Lemma In_setdefault_add (k key item : str) (items : list str) (seen : seen_dict) :
  In (k, items) (setdefault_add key item seen) ->
  In (k, items) seen
  \/ (k = key /\ exists old, (In (key, old) seen \/ old = [])
                             /\ items = set_add str_eq_dec item old).
Proof.
  induction seen as [|[k0 v0] seen IH]; simpl.
  - intros [[= <- <-]|[]]. right. split; [reflexivity|].
    exists []. split; [now right | reflexivity].
  - destruct (str_eqb k0 key) eqn:E0; simpl.
    + apply str_eqb_eq in E0. subst k0.
      intros [[= <- <-]|H]; [|now left; right].
      right. split; [reflexivity|]. exists v0. split; [now left; left | reflexivity].
    + intros [H|H]; [now left; left|].
      destruct (IH H) as [H'|[-> [old [[Hold|Hold] ->]]]].
      * now left; right.
      * right. split; [reflexivity|]. exists old. split; [left; now right | reflexivity].
      * right. split; [reflexivity|]. exists old. split; [now right | reflexivity].
Qed.

Lemma seen_inv_step (seen : seen_dict) (done : list str) (item : str) :
  seen_inv seen done ->
  seen_inv (setdefault_add (basename w item) item seen) (done ++ [item]).
Proof.
  intros [Hsound Hcomplete]. split.
  - intros k items Hin.
    destruct (In_setdefault_add _ _ _ _ _ Hin)
      as [H|[-> [old [Hold ->]]]].
    + destruct (Hsound _ _ H) as [Hnd Hall]. split; [assumption|].
      intros p Hp. destruct (Hall p Hp). split; [|assumption].
      apply in_or_app. now left.
    + assert (Hold' : NoDup old /\
                      forall p, In p old -> In p done /\ basename w p = basename w item).
      { destruct Hold as [Hold| ->].
        - exact (Hsound _ _ Hold).
        - split; [constructor | intros p []]. }
      destruct Hold' as [Hnd Hall]. split.
      * now apply set_add_nodup.
      * intros p Hp. apply set_add_iff in Hp. destruct Hp as [->|Hp].
        -- split; [|reflexivity]. apply in_or_app. right. now left.
        -- destruct (Hall p Hp). split; [|assumption].
           apply in_or_app. now left.
  - intros p Hp. rewrite lookup_setdefault_add.
    destruct (str_eqb (basename w item) (basename w p)) eqn:E.
    + eexists. split; [reflexivity|]. apply set_add_iff.
      apply in_app_or in Hp. destruct Hp as [Hp|[->|[]]]; [|now left].
      right. destruct (Hcomplete p Hp) as [items [Hl Hi]].
      apply str_eqb_eq in E. rewrite E, Hl. exact Hi.
    + apply in_app_or in Hp. destruct Hp as [Hp|[->|[]]].
      * exact (Hcomplete p Hp).
      * now rewrite str_eqb_refl in E.
Qed.

Lemma seen_inv_fold (files : list str) (seen : seen_dict) (done : list str) :
  seen_inv seen done ->
  seen_inv (fold_left (fun seen item_path =>
                         setdefault_add (basename w item_path) item_path seen)
                      files seen)
           (done ++ files).
Proof.
  revert seen done. induction files as [|f files IH]; intros seen done Hinv; simpl.
  - now rewrite app_nil_r.
  - replace (done ++ f :: files) with ((done ++ [f]) ++ files)
      by now rewrite <- app_assoc.
    apply IH. now apply seen_inv_step.
Qed.

Lemma seen_inv_init (files : list str) :
  seen_inv (fold_left (fun seen item_path =>
                         setdefault_add (basename w item_path) item_path seen)
                      files [])
           files.
Proof.
  apply (seen_inv_fold files (seen := []) (done := [])).
  split; [intros k items [] | intros p []].
Qed.

Lemma conflict_not_unique (files : list str) (name : str) :
  conflict files name -> ~ unique_basenames files.
Proof.
  intros (p & q & Hp & Hq & Hne & Hbp & Hbq) Hu.
  apply Hne, Hu; congruence.
Qed.

Lemma entry_conflict (files : list str) (seen : seen_dict) (k : str)
    (items : list str) :
  seen_inv seen files -> In (k, items) seen ->
  (1 <? List.length items)%nat = true -> conflict files k.
Proof.
  intros [Hsound _] Hin Hlen.
  destruct (Hsound _ _ Hin) as [Hnd Hall].
  destruct items as [|a [|b items]]; simpl in Hlen; try discriminate.
  exists a, b.
  destruct (Hall a (or_introl eq_refl)) as [Ha Hba].
  destruct (Hall b (or_intror (or_introl eq_refl))) as [Hb Hbb].
  repeat split; try assumption.
  intros ->. inversion Hnd as [|? ? Hnotin _]. apply Hnotin. now left.
Qed.

Lemma entries_unique (files : list str) (seen : seen_dict) :
  seen_inv seen files ->
  (forall k items, In (k, items) seen -> (1 <? List.length items)%nat = false) ->
  unique_basenames files.
Proof.
  intros [_ Hcomplete] Hsmall p q Hp Hq Hb.
  destruct (Hcomplete p Hp) as [ip [Hlp Hip]].
  destruct (Hcomplete q Hq) as [iq [Hlq Hiq]].
  rewrite Hb in Hlp. rewrite Hlp in Hlq. injection Hlq as ->.
  specialize (Hsmall _ _ (lookup_In _ _ Hlp)).
  destruct iq as [|a [|b iq]]; simpl in *; try discriminate; intuition congruence.
Qed.

End Seen.

(* ------------------------------------------------------------------ *)
(** ** Running the effects *)

Lemma for_print (f : str -> str) (lines : list str) (t : Trace) :
  for_ lines (fun x => print_stderr (f x)) t =
  (Return tt, {| stderr := stderr t ++ map f lines; spawned := spawned t |}).
Proof.
  revert t. induction lines as [|x lines IH]; intros t; simpl.
  - destruct t; simpl. now rewrite app_nil_r.
  - unfold bind, print_stderr at 1. rewrite IH. simpl.
    now rewrite <- app_assoc.
Qed.

(** The loop over [seen.items()]: it passes every entry with at most one
    path and stops at the first entry with more, after printing it. *)
Lemma conflict_loop (seen : seen_dict) (t : Trace) :
  let loop :=
    for_ seen (fun '(item_name, item_paths) =>
      if (1 <? List.length item_paths)%nat
      then
        print_stderr (lit "multiple items with same filename added to archive: <"
                      ++ item_name ++ lit ">") ;;
        for_ item_paths (fun item_path =>
          print_stderr (lit "<" ++ item_path ++ lit ">")) ;;
        raise (ValueError item_name)
      else ret tt) in
  ((forall k items, In (k, items) seen -> (1 <? List.length items)%nat = false)
   /\ loop t = (Return tt, t))
  \/ (exists k items,
        In (k, items) seen /\ (1 <? List.length items)%nat = true
        /\ loop t = (Raise (ValueError k),
                     {| stderr := stderr t ++ conflict_header k :: map bracketed items;
                        spawned := spawned t |})).
Proof.
  induction seen as [|[k items] seen IH]; cbv zeta in *; cbn [for_].
  - left. split; [intros ? ? [] | reflexivity].
  - destruct (1 <? List.length items)%nat eqn:Hlen.
    + right. exists k, items. split; [now left|]. split; [assumption|].
      unfold bind at 1. cbv beta iota.
      unfold bind, print_stderr at 1.
      rewrite (for_print (fun p => lit "<" ++ p ++ lit ">")). unfold raise.
      cbn [stderr spawned]. unfold conflict_header, bracketed.
      now rewrite <- app_assoc.
    + unfold bind at 1. cbv beta iota. unfold ret at 1.
      destruct IH as [[Hsmall Hrun]|(k' & items' & Hin & Hlen' & Hrun)].
      * left. split; [|exact Hrun].
        intros k' items' [[= <- <-]|Hin]; [assumption|exact (Hsmall _ _ Hin)].
      * right. exists k', items'. split; [now right|]. split; assumption.
Qed.

Section Invoke.

Variable w : World.

Local Abbreviation verdict := (verdict w).

Lemma invoke_run (command : list str) (t : Trace) :
  invoke w command t =
  (verdict command,
   {| stderr := stderr t; spawned := spawned t ++ [command] |}).
Proof.
  unfold invoke, verdict, bind, check_output, decode_cp1252, assert_, ret, raise.
  destruct (run w command) as [returncode output].
  destruct (Z.eqb returncode 0); [|reflexivity].
  destruct (Cp1252.decode output) as [text|]; [|reflexivity].
  destruct (str_in MARKER text); reflexivity.
Qed.

End Invoke.

(* ------------------------------------------------------------------ *)
(** ** Every call goes one of the listed ways *)

Section CreateCases.

Variables (w : World) (files : list str) (archive : str)
          (password : option str) (encrypt_headers overwrite : bool)
          (volumes : option str).

Local Abbreviation create_checks :=
  (create_checks w files archive overwrite volumes).
Local Abbreviation create_command :=
  (create_command w files archive password encrypt_headers overwrite volumes).
Local Abbreviation create_case :=
  (create_case w files archive password encrypt_headers overwrite volumes).

Lemma archive_create_case :
  create_case (fun verbose =>
                 archive_create w files archive password encrypt_headers
                                overwrite verbose volumes no_effects).
Proof.
  unfold archive_create.
  pose proof (seen_inv_init w files) as Hinv.
  unfold bind at 1.
  match goal with
  | |- context [for_ ?seen _ _] =>
      destruct (conflict_loop seen no_effects)
        as [[Hsmall ->]|(k & items & Hin & Hlen & ->)]
  end.
  2:{ apply create_conflict with (name := k) (items := items); [|reflexivity].
      eapply entry_conflict; eassumption. }
  assert (Huniq : unique_basenames w files)
    by (eapply entries_unique; eassumption).
  unfold bind at 1, assert_ at 1.
  destruct (isdir w (abspath w archive)) eqn:Hdir; cbn [negb].
  { now apply create_dir_exists. }
  unfold ret at 1, bind at 1, assert_ at 1.
  destruct (overwrite || negb (isfile w (abspath w archive))) eqn:Hfile.
  2:{ apply orb_false_iff in Hfile. destruct Hfile as [Hov Hfile].
      apply negb_false_iff in Hfile. now apply create_file_exists. }
  assert (Hfile' : overwrite = true \/ isfile w (abspath w archive) = false).
  { apply orb_true_iff in Hfile. destruct Hfile as [H|H]; [now left|].
    right. now apply negb_true_iff. }
  unfold ret at 1.
  assert (Hvolumes :
            volumes = Some []
            \/ (volumes <> Some []
                /\ forall v, volumes = Some v -> (0 <? List.length v)%nat = true)).
  { destruct volumes as [[|c v]|]; [now left | right ..];
      (split; [congruence | intros v' [= <-]; reflexivity || discriminate]). }
  destruct Hvolumes as [Hvol|[Hvol Hvlen]].
  { apply create_volumes_empty; try assumption. now rewrite Hvol. }
  assert (Hchecks : create_checks) by (repeat split; assumption).
  assert (Hpassword :
            password = Some []
            \/ (exists p, password = Some p /\ p <> []
                          /\ str_in [DQUOTE] p = true)
            \/ password_ok password).
  { destruct password as [[|c p]|] eqn:Hpw; [now left | right ..].
    - destruct (str_in [DQUOTE] (c :: p)) eqn:Hq.
      + left. exists (c :: p). repeat split; [discriminate|assumption].
      + right. intros p' [= <-]. split; [discriminate|assumption].
    - right. intros p' [=]. }
  destruct Hpassword as [Hpw|[(p & Hpw & Hp & Hq)|Hok]].
  - apply create_password_empty; try assumption. intros verbose.
    rewrite Hpw. destruct volumes as [v|] eqn:Ev; [rewrite (Hvlen v eq_refl)|];
      reflexivity.
  - eapply create_password_quote; try eassumption. intros verbose.
    rewrite Hpw. apply length_pos in Hp.
    destruct volumes as [v|] eqn:Ev; [rewrite (Hvlen v eq_refl)|];
      unfold bind, assert_, ret, raise; rewrite Hp, Hq; reflexivity.
  - apply create_runs; try assumption. intros verbose.
    unfold create_command.
    destruct volumes as [v|] eqn:Ev; [rewrite (Hvlen v eq_refl)|];
      (destruct password as [p|] eqn:Ep;
       [ destruct (Hok p eq_refl) as [Hp Hq]; apply length_pos in Hp;
         unfold bind, assert_, ret, raise; rewrite Hp, Hq
       | unfold bind, assert_, ret ];
       try rewrite fold_left_snoc;
       destruct overwrite, encrypt_headers;
       repeat rewrite <- app_assoc; reflexivity).
Qed.

End CreateCases.

Lemma password_or_del_cases (password : option str) :
  (password = Some []
   /\ (0 <? List.length (password_or_del password))%nat = false)
  \/ ((exists p, password = Some p /\ p <> [] /\ str_in [DQUOTE] p = true)
      /\ (0 <? List.length (password_or_del password))%nat = true
      /\ str_in [DQUOTE] (password_or_del password) = true)
  \/ (password_ok password
      /\ (0 <? List.length (password_or_del password))%nat = true
      /\ str_in [DQUOTE] (password_or_del password) = false).
Proof.
  destruct password as [[|c p]|]; simpl.
  - left. now split.
  - right. destruct (str_in [DQUOTE] (c :: p)) eqn:Hq.
    + left. split; [|now split].
      exists (c :: p). repeat split; [discriminate|assumption].
    + right. split; [|now split].
      intros p' [= <-]. split; [discriminate|assumption].
  - right. right. split; [|now split]. intros p' [=].
Qed.

Section TestCases.

Variables (w : World) (archive : str) (password : option str).

Local Abbreviation test_command := (test_command w archive password).
Local Abbreviation test_case := (test_case w archive password).

Lemma archive_test_case :
  test_case (fun verbose => archive_test w archive password verbose no_effects).
Proof.
  unfold archive_test. fold (password_or_del password).
  destruct (password_or_del_cases password)
    as [[Hpw Hlen]|[[(p & Hpw & Hp & Hq') [Hlen Hq]]|[Hok [Hlen Hq]]]].
  - apply test_password_empty; [assumption|]. intros verbose.
    unfold bind, assert_, raise. now rewrite Hlen.
  - eapply test_password_quote; try eassumption. intros verbose.
    unfold bind, assert_, ret, raise. now rewrite Hlen, Hq.
  - apply test_runs; [assumption|]. intros verbose.
    unfold bind at 1, assert_ at 1. rewrite Hlen.
    unfold ret at 1, bind at 1. rewrite Hq. reflexivity.
Qed.

End TestCases.

Lemma overwrite_accepted (overwrite : pyval) :
  let mode :=
    match overwrite with
    | PBool true => PStr (lit "a")
    | PBool false => PStr (lit "s")
    | _ => overwrite
    end in
  match overwrite_code overwrite with
  | Some code =>
      existsb (py_eq mode)
              [PStr (lit "a"); PStr (lit "s"); PStr (lit "u"); PStr (lit "t")] = true
      /\ py_str mode = code
  | None =>
      existsb (py_eq mode)
              [PStr (lit "a"); PStr (lit "s"); PStr (lit "u"); PStr (lit "t")] = false
  end.
Proof.
  destruct overwrite as [|[|]|z|s]; cbv zeta; try (split; reflexivity);
    try reflexivity.
  unfold overwrite_code, MODES. cbn [existsb py_eq py_str].
  destruct (str_eqb s (lit "a") || (str_eqb s (lit "s")
            || (str_eqb s (lit "u") || (str_eqb s (lit "t") || false))));
    [split|]; reflexivity.
Qed.

Lemma forallb_false (A : Type) (f : A -> bool) (l : list A) :
  forallb f l = false -> exists x, In x l /\ f x = false.
Proof.
  induction l as [|a l IH]; simpl; [discriminate|].
  destruct (f a) eqn:Ha; simpl.
  - intros H. destruct (IH H) as [x [Hx Hf]]. exists x. split; [now right|assumption].
  - intros _. exists a. split; [now left|assumption].
Qed.

Section ExtractCases.

Variables (w : World) (archive : str) (into_dir password : option str)
          (flat : bool) (overwrite : pyval).

Local Abbreviation extract_dest := (extract_dest w into_dir).
Local Abbreviation extract_checks := (extract_checks w archive into_dir password).
Local Abbreviation extract_command :=
  (extract_command w archive into_dir password flat).
Local Abbreviation extract_case :=
  (extract_case w archive into_dir password flat overwrite).

Lemma archive_extract_case :
  extract_case (fun verbose =>
                  archive_extract w archive into_dir password flat overwrite
                                  verbose no_effects).
Proof.
  unfold archive_extract.
  fold (password_or_del password). fold extract_dest.
  unfold bind at 1, assert_ at 1.
  destruct (isfile w (abspath w archive)) eqn:Harch.
  2:{ now apply extract_no_archive. }
  unfold ret at 1, bind at 1, assert_ at 1.
  destruct (password_or_del_cases password)
    as [[Hpw Hlen]|Hpassword]; rewrite ?Hlen.
  { now apply extract_password_empty. }
  assert (Hlen : (0 <? List.length (password_or_del password))%nat = true)
    by (destruct Hpassword as [[_ [H _]]|[_ [H _]]]; exact H).
  assert (Hpw : password <> Some []).
  { intros E. rewrite E in Hlen. discriminate. }
  rewrite Hlen.
  unfold ret at 1, bind at 1, assert_ at 1.
  destruct (0 <? List.length extract_dest)%nat eqn:Hdest.
  2:{ apply extract_dest_empty; try assumption; [|reflexivity].
      destruct extract_dest; [reflexivity|discriminate]. }
  apply length_pos in Hdest.
  unfold ret at 1, bind at 1, assert_ at 1.
  destruct (forallb _ RESERVED) eqn:Hres.
  2:{ apply forallb_false in Hres. destruct Hres as [c [Hc Hin]].
      apply negb_false_iff, str_in_char in Hin.
      eapply extract_dest_reserved; try eassumption. reflexivity. }
  assert (Hres' : forall c, In c RESERVED -> ~ In c (basename w extract_dest)).
  { intros c Hc Hin. rewrite forallb_forall in Hres. specialize (Hres c Hc).
    apply negb_true_iff in Hres. apply str_in_char in Hin. congruence. }
  unfold ret at 1, bind at 1, assert_ at 1.
  destruct (isfile w extract_dest) eqn:Hfile; cbn [negb].
  { now apply extract_dest_is_file. }
  assert (Hchecks : extract_checks) by (repeat split; assumption).
  unfold ret at 1, bind at 1.
  destruct Hpassword as [[(p & Hp & _ & Hq') [_ Hq]]|[Hok [_ Hq]]]; rewrite Hq.
  { eapply extract_password_quote; try eassumption. reflexivity. }
  unfold ret at 1, bind at 1, assert_ at 1.
  pose proof (overwrite_accepted overwrite) as Hov. cbv zeta in Hov.
  destruct (overwrite_code overwrite) as [code|] eqn:Hcode.
  - destruct Hov as [Hacc Hstr]. rewrite Hacc. unfold ret at 1.
    eapply extract_runs; try eassumption. intros verbose.
    unfold extract_command. now rewrite Hstr.
  - rewrite Hov. now apply extract_bad_overwrite.
Qed.

End ExtractCases.

(* ------------------------------------------------------------------ *)
(** ** Calls, in general *)

Lemma with_verbose_id (c : call) : with_verbose (verbose_of c) c = c.
Proof. destruct c; reflexivity. Qed.

Lemma invoke_outcome (w : World) (command : list str) :
  fst (invoke w command no_effects) = verdict w command.
Proof. now rewrite invoke_run. Qed.

Lemma invoke_spawned (w : World) (command : list str) :
  spawned (snd (invoke w command no_effects)) = [command].
Proof. now rewrite invoke_run. Qed.

(** A call is either refused, for a reason that does not depend on
    [verbose] and before any process is started, or it runs one process
    on a vector that carries [verbose] in its flag. *)
Lemma exec_cases (w : World) (c : call) :
  (exists e t,
      validation_error e /\ spawned t = []
      /\ forall v, exec w (with_verbose v c) no_effects = (Raise e, t))
  \/ (exists command : pyval -> list str,
         forall v,
           exec w (with_verbose v c) no_effects = invoke w (command v) no_effects
           /\ nth_error (command v) (flag_index c) = Some (lit "-bb" ++ py_str v)).
Proof.
  destruct c as [files archive password eh ov verbose volumes
                |archive password verbose
                |archive into_dir password flat ov verbose]; simpl.
  - destruct (archive_create_case w files archive password eh ov volumes)
      as [name items _ H|_ _ H|_ _ _ _ H|_ _ _ _ H|_ _ H|p _ _ _ _ H|_ _ H];
      try (left; eexists; eexists; split; [|split; [|exact H]];
           [exact I | reflexivity]).
    right. exists (create_command w files archive password eh ov volumes).
    intros v. split; [apply H | reflexivity].
  - destruct (archive_test_case w archive password)
      as [_ H|p _ _ _ H|_ H];
      try (left; eexists; eexists; split; [|split; [|exact H]];
           [exact I | reflexivity]).
    right. exists (test_command w archive password).
    intros v. split; [apply H | reflexivity].
  - destruct (archive_extract_case w archive into_dir password flat ov)
      as [_ H|_ _ H|_ _ _ H|ch _ _ _ _ _ H|_ _ _ _ _ H|p _ _ _ H|_ _ _ H
         |code _ _ _ H];
      try (left; eexists; eexists; split; [|split; [|exact H]];
           [exact I | reflexivity]).
    right. exists (extract_command w archive into_dir password flat code).
    intros v. split; [apply H | reflexivity].
Qed.

(** No call starts more than one process. *)
Lemma spawned_at_most_one (w : World) (c : call) :
  spawned (effects w c) = [] \/ exists command, spawned (effects w c) = [command].
Proof.
  unfold effects. rewrite <- (with_verbose_id c).
  destruct (exec_cases w c) as [(e & t & _ & Ht & H)|[command H]].
  - left. now rewrite H.
  - right. exists (command (verbose_of c)).
    destruct (H (verbose_of c)) as [-> _]. apply invoke_spawned.
Qed.

Lemma unique_basenamesb_spec (w : World) (files : list str) :
  unique_basenamesb w files = true <-> unique_basenames w files.
Proof.
  unfold unique_basenamesb, unique_basenames. rewrite forallb_forall. split.
  - intros H p q Hp Hq Hb. specialize (H p Hp). rewrite forallb_forall in H.
    specialize (H q Hq). apply orb_true_iff in H. destruct H as [H|H].
    + apply negb_true_iff, str_eqb_neq in H. contradiction.
    + now apply str_eqb_eq.
  - intros H p Hp. apply forallb_forall. intros q Hq.
    destruct (str_eqb (basename w p) (basename w q)) eqn:E; [|reflexivity].
    apply str_eqb_eq in E. simpl. apply str_eqb_eq. now apply H.
Qed.

Lemma reserved_free_spec (name : str) :
  forallb (fun char => negb (str_in [char] name)) RESERVED = true
  <-> forall c, In c RESERVED -> ~ In c name.
Proof.
  rewrite forallb_forall. split; intros H c Hc.
  - intros Hin. apply str_in_char in Hin. specialize (H c Hc).
    apply negb_true_iff in H. congruence.
  - apply negb_true_iff. destruct (str_in [c] name) eqn:E; [|reflexivity].
    apply str_in_char in E. now destruct (H c Hc).
Qed.

(* ------------------------------------------------------------------ *)
(** ** The success marker *)

(** C1, as stated, fails: a child that prints the marker and exits with
    status 1 makes the call fail with [CalledProcessError], although the
    decoded output contains the marker. *)
Lemma C1_marker_with_nonzero_exit :
  let command := [lit "/opt/py7z/7-zip/x64/7z.exe"; lit "t";
                  lit "/home/u/test.7z"; lit "-p" ++ DEL; lit "-bb3"; lit "-bt"] in
  spawned (effects (Sample.host Sample.ok_but_status_1)
                   (Test (lit "test.7z") None (PInt 3))) = [command]
  /\ Cp1252.decode (snd (Sample.ok_but_status_1 command))
     = Some (lit "Everything is Ok")
  /\ str_in MARKER (lit "Everything is Ok") = true
  /\ outcome (Sample.host Sample.ok_but_status_1)
             (Test (lit "test.7z") None (PInt 3))
     = Raise (CalledProcessError 1 command (Cp1252.ascii_bytes "Everything is Ok")).
Proof. repeat split. Qed.

(** C1, amended: once the process has been run, the exit status is looked
    at first.  A non-zero status fails the call whatever was printed.  With
    status zero the call returns the decoded output exactly when it
    contains "Everything is Ok", and fails otherwise; an output that
    cp1252 cannot decode fails it as well. *)
Theorem C1_verdict_after_run (w : World) (c : call) (command : list str)
    (returncode : Z) (output : bytes) :
  spawned (effects w c) = [command] ->
  run w command = (returncode, output) ->
  (returncode <> 0%Z ->
     outcome w c = Raise (CalledProcessError returncode command output))
  /\ (returncode = 0%Z ->
      forall text, Cp1252.decode output = Some text ->
        outcome w c =
        if str_in MARKER text then Return text
        else Raise (AssertionError (Some (lit "something went wrong: " ++ text))))
  /\ (returncode = 0%Z -> Cp1252.decode output = None ->
      outcome w c = Raise (UnicodeDecodeError output)).
Proof.
  unfold effects, outcome. rewrite <- (with_verbose_id c).
  destruct (exec_cases w c) as [(e & t & _ & Ht & H)|[mk H]].
  - rewrite H. simpl. rewrite Ht. discriminate.
  - destruct (H (verbose_of c)) as [-> _].
    rewrite invoke_spawned, invoke_outcome. intros [= ->] Hrun.
    unfold verdict. rewrite Hrun.
    repeat split.
    + intros Hrc. apply Z.eqb_neq in Hrc. now rewrite Hrc.
    + intros -> text ->. reflexivity.
    + intros -> ->. reflexivity.
Qed.

(** C1 on the sample host. *)
Lemma C1_verdict_after_run_witness :
  outcome (Sample.host Sample.ok) (Test (lit "test.7z") None (PInt 3))
  = Return (lit "Everything is Ok")
  /\ outcome (Sample.host Sample.silent) (Test (lit "test.7z") None (PInt 3))
     = Raise (AssertionError (Some (lit "something went wrong: "))).
Proof.
  split.
  - refine (proj1 (proj2 (C1_verdict_after_run
              (Sample.host Sample.ok) (Test (lit "test.7z") None (PInt 3))
              (command := test_command (Sample.host Sample.ok)
                                       (lit "test.7z") None (PInt 3))
              (returncode := 0) (output := Cp1252.ascii_bytes "Everything is Ok")
              _ _)) eq_refl (lit "Everything is Ok") _);
      reflexivity.
  - refine (proj1 (proj2 (C1_verdict_after_run
              (Sample.host Sample.silent) (Test (lit "test.7z") None (PInt 3))
              (command := test_command (Sample.host Sample.silent)
                                       (lit "test.7z") None (PInt 3))
              (returncode := 0) (output := [])
              _ _)) eq_refl [] _);
      reflexivity.
Defined.

(* ------------------------------------------------------------------ *)
(** ** Creating an archive *)

(** C2: when two different paths of the list share a base name, the call
    raises [ValueError] on a base name that two different paths share,
    after printing a line that names it, and starts no process. *)
Theorem C2_conflict_rejected (w : World) (files : list str) (archive : str)
    (password : option str) (encrypt_headers overwrite : bool)
    (verbose : pyval) (volumes : option str) (p q : str) :
  In p files -> In q files -> p <> q -> basename w p = basename w q ->
  exists name lines,
    exec w (Create files archive password encrypt_headers overwrite verbose
                   volumes) no_effects
    = (Raise (ValueError name),
       {| stderr :=
            (lit "multiple items with same filename added to archive: <"
             ++ name ++ lit ">") :: lines;
          spawned := [] |})
    /\ conflict w files name.
Proof.
  intros Hp Hq Hne Hb. simpl.
  assert (Hnu : ~ unique_basenames w files).
  { intros Hu. apply Hne. now apply Hu. }
  destruct (archive_create_case w files archive password encrypt_headers
                                overwrite volumes)
    as [name items Hc H|Hu _ _|Hu _ _ _ _|Hu _ _ _ _|[Hu _] _ _
       |? [Hu _] _ _ _ _|[Hu _] _ _];
    try contradiction.
  exists name, (map bracketed items). split; [apply H | assumption].
Qed.

(** C2 on the sample host. *)
Lemma C2_conflict_rejected_witness :
  exists name lines,
    exec (Sample.host Sample.ok)
         (Create [lit "a/x.txt"; lit "b/x.txt"] (lit "new.7z") None false false
                 (PInt 3) None) no_effects
    = (Raise (ValueError name),
       {| stderr :=
            (lit "multiple items with same filename added to archive: <"
             ++ name ++ lit ">") :: lines;
          spawned := [] |})
    /\ conflict (Sample.host Sample.ok) [lit "a/x.txt"; lit "b/x.txt"] name.
Proof.
  apply (C2_conflict_rejected (Sample.host Sample.ok)
           [lit "a/x.txt"; lit "b/x.txt"] (lit "new.7z") None false false
           (PInt 3) None (p := lit "a/x.txt") (q := lit "b/x.txt")).
  - simpl. left. reflexivity.
  - simpl. right. left. reflexivity.
  - discriminate.
  - reflexivity.
Defined.

(** C3, as stated, fails: extracting an archive that does not exist, with
    a password that holds a double quote, fails on the missing archive,
    not with [NotImplementedError]. *)
Lemma C3_missing_archive_first :
  str_in [DQUOTE] (lit "a" ++ DQUOTE :: lit "b") = true
  /\ exec (Sample.host Sample.ok)
          (Extract (lit "missing.7z") None (Some (lit "a" ++ DQUOTE :: lit "b"))
                   false (PBool true) (PInt 3)) no_effects
     = (Raise (AssertionError
                 (Some (lit "archive does not exist at provided path"))),
        no_effects).
Proof. split; reflexivity. Qed.

(** The error of a failed earlier check is never the one raised for a
    double quote, and it rules the passing of those checks out. *)
Lemma earlier_failure_excludes (w : World) (c : call) (e : exn) :
  earlier_failure w c e ->
  ~ earlier_checks w c /\ forall msg, e <> NotImplementedError msg.
Proof.
  destruct c as [files archive password eh ov verbose volumes
                |archive password verbose
                |archive into_dir password flat ov verbose]; simpl.
  - intros [(name & Hc & ->)
           |[(Hu & Hd & ->)
            |[(Hu & Hd & Hov & Hf & ->)|(Hu & Hd & Hf & Hv & ->)]]];
      (split; [|discriminate]).
    + intros (Hu & _). now destruct (conflict_not_unique Hc).
    + intros (_ & Hd' & _). congruence.
    + intros (_ & _ & [Hov'|Hf'] & _); congruence.
    + intros (_ & _ & _ & Hv'). contradiction.
  - intros [].
  - intros [(Ha & ->)
           |[(Ha & Hp & ->)
            |[(Ha & Hp & Hd & ->)
             |[(Ha & Hp & Hd & (ch & Hch & Hin) & ->)
              |(Ha & Hp & Hd & Hr & Hf & ->)]]]];
      (split; [|discriminate]).
    + intros (Ha' & _). congruence.
    + intros (_ & Hp' & _). contradiction.
    + intros (_ & _ & Hd' & _). contradiction.
    + intros (_ & _ & _ & Hr' & _). now destruct (Hr' ch Hch).
    + intros (_ & _ & _ & _ & Hf'). congruence.
Qed.

(** C3, amended: a call whose password holds a double quote always fails
    before any process is asked for.  When the checks made before the one
    on the double quote pass, which is always so for [archive_test], the
    failure is [NotImplementedError]; otherwise it is the error of the
    first of those checks that fails, which is a [ValueError] or an
    [AssertionError] and never [NotImplementedError]. *)
Theorem C3_quote_rejected (w : World) (c : call) (p : str) :
  password_of c = Some p -> str_in [DQUOTE] p = true ->
  (exists e t,
      exec w c no_effects = (Raise e, t) /\ validation_error e /\ spawned t = []
      /\ ((earlier_checks w c
           /\ e = NotImplementedError (lit "double-quote not supported")
           /\ t = no_effects)
          \/ (~ earlier_checks w c
              /\ earlier_failure w c e
              /\ forall msg, e <> NotImplementedError msg)))
  /\ (earlier_checks w c ->
      exec w c no_effects
      = (Raise (NotImplementedError (lit "double-quote not supported")),
         no_effects)).
Proof.
  intros Hpw Hq.
  assert (Hnok : ~ password_ok (Some p)).
  { intros Hok. destruct (Hok p eq_refl) as [_ E]. congruence. }
  assert (Hne : Some p <> Some []).
  { intros [= ->]. discriminate. }
  assert (Hlate : forall e t,
             exec w c no_effects = (Raise e, t) ->
             spawned t = [] -> validation_error e ->
             earlier_failure w c e ->
             (exists e t,
                 exec w c no_effects = (Raise e, t) /\ validation_error e
                 /\ spawned t = []
                 /\ ((earlier_checks w c
                      /\ e = NotImplementedError (lit "double-quote not supported")
                      /\ t = no_effects)
                     \/ (~ earlier_checks w c
                         /\ earlier_failure w c e
                         /\ forall msg, e <> NotImplementedError msg)))
             /\ (earlier_checks w c ->
                 exec w c no_effects
                 = (Raise (NotImplementedError (lit "double-quote not supported")),
                    no_effects))).
  { intros e t Hrun Hsp Hval Hfail.
    destruct (earlier_failure_excludes w c e Hfail) as [Hnot Hne'].
    split.
    - exists e, t. repeat split; try assumption. right. now repeat split.
    - intros Hch. now destruct (Hnot Hch). }
  assert (Hearly : exec w c no_effects
                   = (Raise (NotImplementedError (lit "double-quote not supported")),
                      no_effects) ->
                   earlier_checks w c ->
                   (exists e t,
                       exec w c no_effects = (Raise e, t) /\ validation_error e
                       /\ spawned t = []
                       /\ ((earlier_checks w c
                            /\ e = NotImplementedError (lit "double-quote not supported")
                            /\ t = no_effects)
                           \/ (~ earlier_checks w c
                               /\ earlier_failure w c e
                               /\ forall msg, e <> NotImplementedError msg)))
                   /\ (earlier_checks w c ->
                       exec w c no_effects
                       = (Raise (NotImplementedError (lit "double-quote not supported")),
                          no_effects))).
  { intros Hrun Hch. split; [|intros _; exact Hrun].
    eexists. eexists. split; [exact Hrun|]. split; [exact I|].
    split; [reflexivity|]. left. now repeat split. }
  destruct c as [files archive password eh ov verbose volumes
                |archive password verbose
                |archive into_dir password flat ov verbose];
    simpl in Hpw; subst password.
  - destruct (archive_create_case w files archive (Some p) eh ov volumes)
      as [name items Hc H|Hu Hd H|Hu Hd Hov Hf H|Hu Hd Hf Hv H|_ E _
         |p' Hch _ _ _ H|_ Hok _].
    + apply (Hlate _ _ (H verbose)); [reflexivity|exact I|].
      left. exists name. now split.
    + apply (Hlate _ _ (H verbose)); [reflexivity|exact I|].
      right. left. now repeat split.
    + apply (Hlate _ _ (H verbose)); [reflexivity|exact I|].
      right. right. left. now repeat split.
    + apply (Hlate _ _ (H verbose)); [reflexivity|exact I|].
      right. right. right. now repeat split.
    + contradiction.
    + apply (Hearly (H verbose)). exact Hch.
    + contradiction.
  - destruct (archive_test_case w archive (Some p))
      as [E _|p' _ _ _ H|Hok _].
    + contradiction.
    + apply (Hearly (H verbose)). exact I.
    + contradiction.
  - destruct (archive_extract_case w archive into_dir (Some p) flat ov)
      as [Ha H|_ E _|Ha Hp Hd H|ch Ha Hp Hd Hr Hin H|Ha Hp Hd Hr Hf H
         |p' Hch _ _ H|_ Hok _ _|code _ Hok _ _].
    + apply (Hlate _ _ (H verbose)); [reflexivity|exact I|].
      left. now split.
    + contradiction.
    + apply (Hlate _ _ (H verbose)); [reflexivity|exact I|].
      right. right. left. now repeat split.
    + apply (Hlate _ _ (H verbose)); [reflexivity|exact I|].
      right. right. right. left. repeat split; try assumption.
      exists ch. now split.
    + apply (Hlate _ _ (H verbose)); [reflexivity|exact I|].
      right. right. right. right. now repeat split.
    + apply (Hearly (H verbose)). exact Hch.
    + contradiction.
    + contradiction.
Qed.

(** C3 on the sample host: with the archive in place the double quote is
    what fails the call, and with the archive missing it is the check of
    the archive. *)
Lemma C3_quote_rejected_witness :
  exec (Sample.host Sample.ok)
       (Extract (lit "test.7z") None (Some (lit "a" ++ DQUOTE :: lit "b"))
                false (PBool true) (PInt 3)) no_effects
  = (Raise (NotImplementedError (lit "double-quote not supported")), no_effects)
  /\ exists e t,
       exec (Sample.host Sample.ok)
            (Extract (lit "missing.7z") None
                     (Some (lit "a" ++ DQUOTE :: lit "b"))
                     false (PBool true) (PInt 3)) no_effects = (Raise e, t)
       /\ validation_error e /\ spawned t = []
       /\ ((earlier_checks (Sample.host Sample.ok)
                           (Extract (lit "missing.7z") None
                                    (Some (lit "a" ++ DQUOTE :: lit "b"))
                                    false (PBool true) (PInt 3))
            /\ e = NotImplementedError (lit "double-quote not supported")
            /\ t = no_effects)
           \/ (~ earlier_checks (Sample.host Sample.ok)
                                (Extract (lit "missing.7z") None
                                         (Some (lit "a" ++ DQUOTE :: lit "b"))
                                         false (PBool true) (PInt 3))
               /\ earlier_failure (Sample.host Sample.ok)
                                  (Extract (lit "missing.7z") None
                                           (Some (lit "a" ++ DQUOTE :: lit "b"))
                                           false (PBool true) (PInt 3)) e
               /\ forall msg, e <> NotImplementedError msg)).
Proof.
  split.
  - refine (proj2 (C3_quote_rejected (Sample.host Sample.ok)
                     (Extract (lit "test.7z") None
                              (Some (lit "a" ++ DQUOTE :: lit "b"))
                              false (PBool true) (PInt 3))
                     (p := lit "a" ++ DQUOTE :: lit "b") eq_refl eq_refl) _).
    repeat split; try reflexivity; try discriminate.
    apply reserved_free_spec. reflexivity.
  - exact (proj1 (C3_quote_rejected (Sample.host Sample.ok)
                    (Extract (lit "missing.7z") None
                             (Some (lit "a" ++ DQUOTE :: lit "b"))
                             false (PBool true) (PInt 3))
                    (p := lit "a" ++ DQUOTE :: lit "b") eq_refl eq_refl)).
Defined.

(** C4: a call to [archive_create] that passes every check runs 7-Zip on
    the vector made of, in this order: the executable, [a], the absolute
    archive path, [-t7z], [-m0=lzma2], [-mx=9], [-bb] with the verbosity,
    [-bt]; [-aoa] exactly when [overwrite] is set; one [-v] flag per
    white-space separated token of [volumes] when it is given; [-p] with
    the password, and [-mhe] after it when [encrypt_headers] is set,
    exactly when a password is given; the absolute input paths. *)
Theorem C4_create_vector (w : World) (files : list str) (archive : str)
    (password : option str) (encrypt_headers overwrite : bool)
    (verbose : pyval) (volumes : option str) :
  unique_basenames w files ->
  isdir w (abspath w archive) = false ->
  (overwrite = true \/ isfile w (abspath w archive) = false) ->
  volumes <> Some [] ->
  password_ok password ->
  spawned (effects w (Create files archive password encrypt_headers overwrite
                             verbose volumes))
  = [ [EXE_PATH w; lit "a"; abspath w archive;
       lit "-t7z"; lit "-m0=lzma2"; lit "-mx=9";
       lit "-bb" ++ py_str verbose; lit "-bt"]
      ++ (if overwrite then [lit "-aoa"] else [])
      ++ match volumes with
         | Some v => map (fun size => lit "-v" ++ size) (split (strip v))
         | None => []
         end
      ++ match password with
         | Some p =>
             (lit "-p" ++ p) :: (if encrypt_headers then [lit "-mhe"] else [])
         | None => []
         end
      ++ map (abspath w) files ].
Proof.
  intros Hu Hd Hf Hv Hok. unfold effects. simpl.
  destruct (archive_create_case w files archive password encrypt_headers
                                overwrite volumes)
    as [name items Hc _|_ Hd' _|_ _ Hov Hf' _|_ _ _ Hv' _|_ E _
       |p _ E _ Hq _|_ _ H].
  - now destruct (conflict_not_unique Hc).
  - congruence.
  - destruct Hf; congruence.
  - contradiction.
  - destruct (Hok [] E) as [Hne _]. now contradiction Hne.
  - destruct (Hok p E) as [_ Hq']. congruence.
  - rewrite (H verbose). apply invoke_spawned.
Qed.

(** C4 on the sample host. *)
Lemma C4_create_vector_witness :
  spawned (effects (Sample.host Sample.ok)
                   (Create [lit "cmds.txt"; lit "docs/"] (lit "test.7z")
                           (Some (lit "test password!")) true true (PInt 3)
                           (Some (lit " 10k 2m "))))
  = [[lit "/opt/py7z/7-zip/x64/7z.exe"; lit "a"; lit "/home/u/test.7z";
      lit "-t7z"; lit "-m0=lzma2"; lit "-mx=9"; lit "-bb3"; lit "-bt";
      lit "-aoa"; lit "-v10k"; lit "-v2m";
      lit "-ptest password!"; lit "-mhe";
      lit "/home/u/cmds.txt"; lit "/home/u/docs"]].
Proof.
  apply (@C4_create_vector (Sample.host Sample.ok)
           [lit "cmds.txt"; lit "docs/"] (lit "test.7z")
           (Some (lit "test password!")) true true (PInt 3)
           (Some (lit " 10k 2m "))).
  - apply unique_basenamesb_spec. reflexivity.
  - reflexivity.
  - left. reflexivity.
  - discriminate.
  - intros p [= <-]. split; [discriminate | reflexivity].
Defined.

(** C6: a call to [archive_create] whose archive path is an existing
    directory, or an existing file while [overwrite] is false, fails
    before any process is started; when the base names are unique the
    failure is the assertion on the output path. *)
Theorem C6_existing_destination (w : World) (files : list str) (archive : str)
    (password : option str) (encrypt_headers overwrite : bool)
    (verbose : pyval) (volumes : option str) :
  isdir w (abspath w archive) = true
  \/ (isfile w (abspath w archive) = true /\ overwrite = false) ->
  exists e t,
    exec w (Create files archive password encrypt_headers overwrite verbose
                   volumes) no_effects = (Raise e, t)
    /\ validation_error e /\ spawned t = []
    /\ (unique_basenames w files ->
        t = no_effects
        /\ e = AssertionError
                 (Some (if isdir w (abspath w archive)
                        then lit "dir already exists at output path"
                        else lit "file already exists at output path"))).
Proof.
  intros Hdest. simpl.
  assert (Hnot : isdir w (abspath w archive) = false ->
                 (overwrite = true \/ isfile w (abspath w archive) = false) ->
                 False).
  { intros Hd [Hov|Hf]; destruct Hdest as [?|[? ?]]; congruence. }
  destruct (archive_create_case w files archive password encrypt_headers
                                overwrite volumes)
    as [name items Hc H|Hu Hd H|Hu Hd Hov Hf H|_ Hd Hf _ _|(_ & Hd & Hf & _) _ _
       |p (_ & Hd & Hf & _) _ _ _ _|(_ & Hd & Hf & _) _ _];
    try (now destruct (Hnot Hd Hf)); rewrite (H verbose);
    eexists; eexists; (split; [reflexivity|]);
    (split; [exact I|]); (split; [reflexivity|]); intros Hu'.
  - now destruct (conflict_not_unique Hc).
  - now rewrite Hd.
  - now rewrite Hd.
Qed.

(** C6 on the sample host. *)
Lemma C6_existing_destination_witness :
  exists e t,
    exec (Sample.host Sample.ok)
         (Create [lit "cmds.txt"] (lit "test.7z") None false false (PInt 3) None)
         no_effects = (Raise e, t)
    /\ validation_error e /\ spawned t = []
    /\ (unique_basenames (Sample.host Sample.ok) [lit "cmds.txt"] ->
        t = no_effects
        /\ e = AssertionError
                 (Some (if isdir (Sample.host Sample.ok)
                                 (abspath (Sample.host Sample.ok) (lit "test.7z"))
                        then lit "dir already exists at output path"
                        else lit "file already exists at output path"))).
Proof.
  apply (@C6_existing_destination (Sample.host Sample.ok)
           [lit "cmds.txt"] (lit "test.7z") None false false (PInt 3) None).
  right. split; reflexivity.
Defined.

(* ------------------------------------------------------------------ *)
(** ** Extracting an archive *)

(** [posixpath.abspath] never gives the empty string. *)
Lemma posix_abspath_nonempty (cwd path : str) : Posix.abspath cwd path <> [].
Proof.
  unfold Posix.abspath, Posix.normpath.
  destruct (if startswith [Posix.SLASH] path then path else Posix.join cwd path)
    as [|c s]; [discriminate|].
  match goal with
  | |- context [repeat Posix.SLASH ?n ++ ?r] =>
      destruct (repeat Posix.SLASH n ++ r); discriminate
  end.
Qed.

(** So, on a POSIX host, the assertion on the length of the output
    directory name never fails. *)
Lemma posix_dest_nonempty (cwd : str) (files dirs : list str)
    (child : list str -> Z * bytes) (into_dir : option str) :
  extract_dest (Posix.world cwd files dirs child) into_dir <> [].
Proof. apply posix_abspath_nonempty. Qed.

(** C5 (the code departs from it): an empty output directory name is not
    refused.  [abspath] turns the empty name into the current directory
    before the length is checked, so the call goes on and 7-Zip is run
    with the current directory as its output directory. *)
Theorem C5_empty_name_not_rejected :
  exec (Sample.host Sample.ok)
       (Extract (lit "test.7z") (Some []) None false (PBool true) (PInt 3))
       no_effects
  = (Return (lit "Everything is Ok"),
     {| stderr := [];
        spawned := [[lit "/opt/py7z/7-zip/x64/7z.exe"; lit "x";
                     lit "-o/home/u"; lit "-p" ++ DEL; lit "-aoa";
                     lit "-bb3"; lit "-bt"; lit "/home/u/test.7z"]] |}).
Proof. reflexivity. Qed.

(** The two other refusals of the output directory do happen: a reserved
    character in the base name of the absolute output directory, or a
    regular file at it, fails the call before any process is started. *)
Lemma extract_dest_rejected (w : World) (archive : str)
    (into_dir password : option str) (flat : bool) (overwrite verbose : pyval) :
  (exists c, In c RESERVED /\ In c (basename w (extract_dest w into_dir)))
  \/ isfile w (extract_dest w into_dir) = true ->
  exists e t,
    exec w (Extract archive into_dir password flat overwrite verbose) no_effects
    = (Raise e, t)
    /\ validation_error e /\ spawned t = [].
Proof.
  intros Hbad. simpl.
  assert (Hnot : extract_checks w archive into_dir password -> False).
  { intros (_ & _ & _ & Hr & Hf). destruct Hbad as [[c [Hc Hin]]|Hf'].
    - now destruct (Hr c Hc).
    - congruence. }
  destruct (archive_extract_case w archive into_dir password flat overwrite)
    as [_ H|_ _ H|_ _ _ H|ch _ _ _ _ _ H|_ _ _ _ _ H|p Hch _ _ _|Hch _ _ _
       |code Hch _ _ _];
    try (now destruct (Hnot Hch)); rewrite (H verbose);
    eexists; eexists; (split; [reflexivity|]); split; [exact I|reflexivity..].
Qed.

Example extract_reserved_name :
  exec (Sample.host Sample.ok)
       (Extract (lit "test.7z") (Some (lit "a:b")) None false (PBool true)
                (PInt 3)) no_effects
  = (Raise (AssertionError (Some (lit "invalid dir name"))), no_effects).
Proof. reflexivity. Qed.

Lemma overwrite_code_other (overwrite : pyval) :
  other_value overwrite -> overwrite_code overwrite = None.
Proof.
  intros [Hb Hs]. destruct overwrite as [|b|z|s]; cbn [overwrite_code];
    try reflexivity.
  - now destruct (Hb b).
  - destruct (existsb (str_eqb s) MODES) eqn:E; [|reflexivity].
    apply existsb_exists in E. destruct E as [code [Hin E]].
    apply str_eqb_eq in E. subst code. now destruct (Hs s Hin).
Qed.

Lemma overwrite_code_accepted (overwrite : pyval) (code : str) :
  accepted overwrite code -> overwrite_code overwrite = Some code.
Proof.
  intros [[-> ->]|[[-> ->]|[-> Hin]]]; try reflexivity.
  cbn [overwrite_code]. replace (existsb (str_eqb code) MODES) with true; [reflexivity|].
  symmetry. apply existsb_exists. exists code. split; [assumption|].
  apply str_eqb_refl.
Qed.

(** C7: in [archive_extract], [True] stands for the mode code [a], [False]
    for [s], and each of [a], [s], [u], [t] for itself: the call that
    passes the other checks runs 7-Zip with [-ao] and that code.  Any other
    value fails the call before a process is started, on the assertion
    about the mode when the other checks pass. *)
Theorem C7_overwrite_modes (w : World) (archive : str)
    (into_dir password : option str) (flat : bool) (overwrite verbose : pyval) :
  (other_value overwrite ->
   exists e t,
     exec w (Extract archive into_dir password flat overwrite verbose) no_effects
     = (Raise e, t)
     /\ validation_error e /\ spawned t = [])
  /\ (extract_checks w archive into_dir password -> password_ok password ->
      (other_value overwrite ->
       exec w (Extract archive into_dir password flat overwrite verbose)
            no_effects
       = (Raise (AssertionError None), no_effects))
      /\ (forall code, accepted overwrite code ->
          exists command,
            spawned (effects w (Extract archive into_dir password flat
                                        overwrite verbose)) = [command]
            /\ nth_error command 4 = Some (lit "-ao" ++ code))).
Proof.
  simpl. unfold effects. simpl.
  destruct (archive_extract_case w archive into_dir password flat overwrite)
    as [Ha H|_ E H|_ _ Hd H|ch _ _ _ Hr Hin H|_ _ _ _ Hf H|p _ E Hq H|_ _ Ho H
       |code _ _ Ho H]; rewrite (H verbose); split;
    try (intros _; eexists; eexists; split; [reflexivity|];
         split; [exact I|reflexivity]).
  - intros (Ha' & _). congruence.
  - intros (_ & E' & _). contradiction.
  - intros (_ & _ & Hd' & _). contradiction.
  - intros (_ & _ & _ & Hr' & _). now destruct (Hr' ch Hr).
  - intros (_ & _ & _ & _ & Hf'). congruence.
  - intros _ Hok. destruct (Hok p E). congruence.
  - intros _ _. split; [reflexivity|].
    intros code Hacc. apply overwrite_code_accepted in Hacc. congruence.
  - intros Hother. apply overwrite_code_other in Hother. congruence.
  - intros _ _. split.
    + intros Hother. apply overwrite_code_other in Hother. congruence.
    + intros code' Hacc. apply overwrite_code_accepted in Hacc.
      assert (code' = code) by congruence. subst code'.
      eexists. split; [apply invoke_spawned | reflexivity].
Qed.

(** C7 on the sample host. *)
Lemma C7_overwrite_modes_witness :
  (exists command,
      spawned (effects (Sample.host Sample.ok)
                       (Extract (lit "test.7z") (Some (lit "out")) None false
                                (PBool false) (PInt 3))) = [command]
      /\ nth_error command 4 = Some (lit "-aos"))
  /\ exec (Sample.host Sample.ok)
          (Extract (lit "test.7z") (Some (lit "out")) None false
                   (PStr (lit "overwrite")) (PInt 3)) no_effects
     = (Raise (AssertionError None), no_effects).
Proof.
  assert (Hch : extract_checks (Sample.host Sample.ok) (lit "test.7z")
                               (Some (lit "out")) None).
  { repeat split; try reflexivity; try discriminate.
    apply reserved_free_spec. reflexivity. }
  assert (Hok : password_ok None) by (intros p; discriminate).
  split.
  - apply (proj2 (proj2 (C7_overwrite_modes (Sample.host Sample.ok)
                           (lit "test.7z") (Some (lit "out")) None false
                           (PBool false) (PInt 3)) Hch Hok)).
    right. left. split; reflexivity.
  - apply (proj1 (proj2 (C7_overwrite_modes (Sample.host Sample.ok)
                           (lit "test.7z") (Some (lit "out")) None false
                           (PStr (lit "overwrite")) (PInt 3)) Hch Hok)).
    split; [discriminate|].
    intros code [<-|[<-|[<-|[<-|[]]]]]; discriminate.
Defined.

(** A call to [archive_extract] that passes every check is the run of
    7-Zip on [extract_command]. *)
Lemma archive_extract_runs (w : World) (archive : str)
    (into_dir password : option str) (flat : bool) (overwrite verbose : pyval)
    (code : str) :
  extract_checks w archive into_dir password ->
  password_ok password ->
  overwrite_code overwrite = Some code ->
  archive_extract w archive into_dir password flat overwrite verbose no_effects
  = invoke w (extract_command w archive into_dir password flat code verbose)
           no_effects.
Proof.
  intros (Ha & Hpw & Hd & Hr & Hf) Hok Hcode.
  destruct (archive_extract_case w archive into_dir password flat overwrite)
    as [Ha' _|_ E _|_ _ Hd' _|ch _ _ _ Hr' Hin _|_ _ _ _ Hf' _|p _ E Hq _
       |_ _ Ho _|code' _ _ Ho H].
  - congruence.
  - contradiction.
  - contradiction.
  - now destruct (Hr ch Hr').
  - congruence.
  - destruct (Hok p E). congruence.
  - congruence.
  - assert (code' = code) by congruence. subst code'. apply H.
Qed.

(** C8: a call to [archive_extract] that passes every check runs 7-Zip on
    the vector made of the executable, [e] when [flat] is set and [x]
    otherwise, [-o] with the output directory, [-p] with the password,
    [-ao] with the overwrite mode, [-bb] with the verbosity, [-bt], and the
    absolute archive path, which comes last. *)
Theorem C8_extract_vector (w : World) (archive : str)
    (into_dir password : option str) (flat : bool) (overwrite verbose : pyval)
    (code : str) :
  extract_checks w archive into_dir password ->
  password_ok password ->
  accepted overwrite code ->
  spawned (effects w (Extract archive into_dir password flat overwrite verbose))
  = [[EXE_PATH w;
      (if flat then lit "e" else lit "x");
      lit "-o" ++ abspath w (strip (match into_dir with
                                    | None => lit "."
                                    | Some d => d
                                    end));
      lit "-p" ++ match password with None => DEL | Some p => p end;
      lit "-ao" ++ code;
      lit "-bb" ++ py_str verbose;
      lit "-bt";
      abspath w archive]].
Proof.
  intros Hch Hok Hacc. apply overwrite_code_accepted in Hacc.
  unfold effects. simpl.
  erewrite archive_extract_runs by eassumption.
  apply invoke_spawned.
Qed.

(** C8 on the sample host. *)
Lemma C8_extract_vector_witness :
  spawned (effects (Sample.host Sample.ok)
                   (Extract (lit "test.7z") (Some (lit " out ")) 
                            (Some (lit "test password!")) true
                            (PStr (lit "u")) (PInt 3)))
  = [[lit "/opt/py7z/7-zip/x64/7z.exe"; lit "e"; lit "-o/home/u/out";
      lit "-ptest password!"; lit "-aou"; lit "-bb3"; lit "-bt";
      lit "/home/u/test.7z"]].
Proof.
  apply (@C8_extract_vector (Sample.host Sample.ok) (lit "test.7z")
           (Some (lit " out ")) (Some (lit "test password!")) true
           (PStr (lit "u")) (PInt 3) (lit "u")).
  - repeat split; try reflexivity; try discriminate.
    apply reserved_free_spec. reflexivity.
  - intros p [= <-]. split; [discriminate | reflexivity].
  - right. right. split; [reflexivity|]. simpl. tauto.
Defined.

(* ------------------------------------------------------------------ *)
(** ** The password given to 7-Zip *)

(** C9: the password used when none is given is the single character
    DEL, and a call to [archive_test] or [archive_extract] without a
    password runs 7-Zip with the flag [-p] followed by it: always for
    [archive_test], and for [archive_extract] when the other checks
    pass. *)
Theorem C9_sentinel_password (w : World) :
  DEL = [127%N]
  /\ (forall archive verbose,
        spawned (effects w (Test archive None verbose))
        = [[EXE_PATH w; lit "t"; abspath w archive;
            lit "-p" ++ DEL; lit "-bb" ++ py_str verbose; lit "-bt"]])
  /\ (forall archive into_dir flat overwrite verbose code,
        extract_checks w archive into_dir None ->
        accepted overwrite code ->
        exists command,
          spawned (effects w (Extract archive into_dir None flat overwrite
                                      verbose)) = [command]
          /\ nth_error command 3 = Some (lit "-p" ++ DEL)).
Proof.
  split; [reflexivity|]. split.
  - intros archive verbose. unfold effects. simpl.
    apply invoke_spawned.
  - intros archive into_dir flat overwrite verbose code Hch Hacc.
    assert (Hok : password_ok None) by (intros p; discriminate).
    apply overwrite_code_accepted in Hacc. unfold effects. simpl.
    erewrite archive_extract_runs by eassumption.
    eexists. split; [apply invoke_spawned | reflexivity].
Qed.

(** C9 on the sample host. *)
Lemma C9_sentinel_password_witness :
  exists command,
    spawned (effects (Sample.host Sample.ok)
                     (Extract (lit "test.7z") None None false (PBool true)
                              (PInt 3))) = [command]
    /\ nth_error command 3 = Some (lit "-p" ++ DEL).
Proof.
  apply (proj2 (proj2 (C9_sentinel_password (Sample.host Sample.ok)))
           (lit "test.7z") None false (PBool true) (PInt 3) (lit "a")).
  - repeat split; try reflexivity; try discriminate.
    apply reserved_free_spec. reflexivity.
  - left. split; reflexivity.
Defined.

(* ------------------------------------------------------------------ *)
(** ** The verbosity *)

(** A call that passes its checks hands over one vector, whatever
    [verbose] is, with [str(verbose)] after [-bb]. *)
Lemma passes_checks_runs (w : World) (c : call) (v : pyval) :
  passes_checks w c ->
  exists command,
    exec w (with_verbose v c) no_effects = invoke w command no_effects
    /\ nth_error command (flag_index c) = Some (lit "-bb" ++ py_str v).
Proof.
  destruct c as [files archive password eh ov verbose volumes
                |archive password verbose
                |archive into_dir password flat ov verbose]; simpl.
  - intros [(Hu & Hd & Hf & Hv) Hok].
    destruct (archive_create_case w files archive password eh ov volumes)
      as [name items Hc _|_ Hd' _|_ _ Hov Hf' _|_ _ _ Hv' _|_ E _
         |p _ E _ Hq _|_ _ H].
    + now destruct (conflict_not_unique Hc).
    + congruence.
    + destruct Hf; congruence.
    + contradiction.
    + destruct (Hok [] E) as [Hne _]. now contradiction Hne.
    + destruct (Hok p E) as [_ Hq']. congruence.
    + eexists. split; [apply H | reflexivity].
  - intros Hok.
    destruct (archive_test_case w archive password) as [E _|p E _ Hq _|_ H].
    + destruct (Hok [] E) as [Hne _]. now contradiction Hne.
    + destruct (Hok p E) as [_ Hq']. congruence.
    + eexists. split; [apply H | reflexivity].
  - intros (Hch & Hok & code & Hacc).
    apply overwrite_code_accepted in Hacc.
    eexists. split.
    + eapply archive_extract_runs; eassumption.
    + reflexivity.
Qed.

(** C10: no function checks [verbose].  A call that is refused before a
    vector is handed over is refused in the same way with any other value
    of [verbose]; a call that hands a vector over also does so with any
    other value [v] of [verbose], which it puts after [-bb] as [str(v)];
    and each of the three functions, given arguments that pass its checks
    (none of which looks at [verbose]), hands over a vector with [-bb]
    followed by [str(v)] at the place of the verbosity flag, for every
    [v]. *)
Theorem C10_verbose_not_validated (w : World) (c : call) (v : pyval) :
  (forall e t,
      exec w c no_effects = (Raise e, t) -> spawned t = [] ->
      exec w (with_verbose v c) no_effects = (Raise e, t))
  /\ (forall command,
        spawned (effects w c) = [command] ->
        exists command',
          spawned (effects w (with_verbose v c)) = [command']
          /\ nth_error command' (flag_index c) = Some (lit "-bb" ++ py_str v))
  /\ (passes_checks w c ->
      exists command',
        spawned (effects w (with_verbose v c)) = [command']
        /\ nth_error command' (flag_index c) = Some (lit "-bb" ++ py_str v)).
Proof.
  split; [|split].
  - assert (Hc : exec w c no_effects
                 = exec w (with_verbose (verbose_of c) c) no_effects)
      by now rewrite with_verbose_id.
    rewrite Hc. clear Hc.
    destruct (exec_cases w c) as [(e0 & t0 & _ & Ht & H)|[mk H]].
    + rewrite !H. intros e t Heq _. exact Heq.
    + destruct (H (verbose_of c)) as [-> _].
      intros e t Heq Ht. rewrite invoke_run in Heq.
      injection Heq as _ <-. simpl in Ht. discriminate.
  - unfold effects.
    assert (Hc : exec w c no_effects
                 = exec w (with_verbose (verbose_of c) c) no_effects)
      by now rewrite with_verbose_id.
    rewrite Hc. clear Hc.
    destruct (exec_cases w c) as [(e0 & t0 & _ & Ht & H)|[mk H]].
    + rewrite !H. intros command. simpl. rewrite Ht. discriminate.
    + destruct (H v) as [-> Hflag].
      intros command _. exists (mk v). split; [apply invoke_spawned|exact Hflag].
  - intros Hpass. unfold effects.
    destruct (passes_checks_runs w c v Hpass) as (command & -> & Hflag).
    exists command. split; [apply invoke_spawned|exact Hflag].
Qed.

(** C10 on the sample host: each of the three functions, with a value of
    [verbose] outside 0..3. *)
Lemma C10_verbose_not_validated_witness :
  (exists command',
      spawned (effects (Sample.host Sample.ok)
                       (Create [lit "cmds.txt"] (lit "new.7z") None false false
                               (PInt 99) None)) = [command']
      /\ nth_error command' 6 = Some (lit "-bb99"))
  /\ (exists command',
        spawned (effects (Sample.host Sample.ok)
                         (Test (lit "test.7z") None (PStr (lit "loud"))))
        = [command']
        /\ nth_error command' 4 = Some (lit "-bbloud"))
  /\ (exists command',
        spawned (effects (Sample.host Sample.ok)
                         (Extract (lit "test.7z") None None false (PBool true)
                                  (PInt (-1)))) = [command']
        /\ nth_error command' 5 = Some (lit "-bb-1")).
Proof.
  split; [|split].
  - apply (proj2 (proj2 (C10_verbose_not_validated (Sample.host Sample.ok)
                           (Create [lit "cmds.txt"] (lit "new.7z") None false
                                   false (PInt 3) None) (PInt 99)))).
    split.
    + repeat split; try reflexivity; try discriminate.
      * apply unique_basenamesb_spec. reflexivity.
      * right. reflexivity.
    + intros p. discriminate.
  - apply (proj2 (proj2 (C10_verbose_not_validated (Sample.host Sample.ok)
                           (Test (lit "test.7z") None (PInt 3))
                           (PStr (lit "loud"))))).
    intros p. discriminate.
  - apply (proj2 (proj2 (C10_verbose_not_validated (Sample.host Sample.ok)
                           (Extract (lit "test.7z") None None false (PBool true)
                                    (PInt 3)) (PInt (-1))))).
    split; [|split].
    + repeat split; try reflexivity; try discriminate.
      apply reserved_free_spec. reflexivity.
    + intros p. discriminate.
    + exists (lit "a"). left. split; reflexivity.
Defined.

(** No function looks inside [verbose]: a text that holds U+0000 is put
    after [-bb] and handed over like any other. *)
Example verbose_text_is_not_inspected :
  spawned (effects (Sample.host Sample.ok)
                   (Test (lit "test.7z") None (PStr [0%N])))
  = [[lit "/opt/py7z/7-zip/x64/7z.exe"; lit "t"; lit "/home/u/test.7z";
      lit "-p" ++ DEL; lit "-bb" ++ [0%N]; lit "-bt"]].
Proof. reflexivity. Qed.

Example verbose_any_value :
  spawned (effects (Sample.host Sample.ok)
                   (Create [lit "cmds.txt"] (lit "new.7z") None false false
                           (PStr (lit "loud")) None))
  = [[lit "/opt/py7z/7-zip/x64/7z.exe"; lit "a"; lit "/home/u/new.7z";
      lit "-t7z"; lit "-m0=lzma2"; lit "-mx=9"; lit "-bbloud"; lit "-bt";
      lit "/home/u/cmds.txt"]].
Proof. reflexivity. Qed.

(* ------------------------------------------------------------------ *)
(** ** What every call does and does not do *)

Lemma verdict_return (w : World) (command : list str) (text : str) :
  verdict w command = Return text ->
  exists output,
    run w command = (0%Z, output)
    /\ Cp1252.decode output = Some text
    /\ str_in MARKER text = true.
Proof.
  unfold verdict. destruct (run w command) as [returncode output].
  destruct (Z.eqb returncode 0) eqn:Hrc; [|discriminate].
  apply Z.eqb_eq in Hrc. subst returncode.
  destruct (Cp1252.decode output) as [t|] eqn:Hd; [|discriminate].
  destruct (str_in MARKER t) eqn:Hm; [|discriminate].
  intros [= ->]. exists output. repeat split; assumption.
Qed.

(** X1: a call that returns has run exactly one process and printed
    nothing; the process exited with status 0, and what the call returns
    is its output decoded, which contains "Everything is Ok". *)
Theorem X1_success_means_marker (w : World) (c : call) (text : str) :
  outcome w c = Return text ->
  exists command output,
    effects w c = {| stderr := []; spawned := [command] |}
    /\ run w command = (0%Z, output)
    /\ Cp1252.decode output = Some text
    /\ str_in MARKER text = true.
Proof.
  unfold outcome, effects. rewrite <- (with_verbose_id c).
  destruct (exec_cases w c) as [(e & t & _ & _ & H)|[mk H]].
  - rewrite H. discriminate.
  - destruct (H (verbose_of c)) as [-> _]. rewrite invoke_run. simpl.
    intros Hv. destruct (verdict_return _ _ Hv) as (output & Hrun & Hdec & Hm).
    exists (mk (verbose_of c)), output. repeat split; assumption.
Qed.

(** X1 on the sample host. *)
Lemma X1_success_means_marker_witness :
  exists command output,
    effects (Sample.host Sample.ok) (Test (lit "test.7z") None (PInt 3))
    = {| stderr := []; spawned := [command] |}
    /\ run (Sample.host Sample.ok) command = (0%Z, output)
    /\ Cp1252.decode output = Some (lit "Everything is Ok")
    /\ str_in MARKER (lit "Everything is Ok") = true.
Proof.
  apply (@X1_success_means_marker (Sample.host Sample.ok)
           (Test (lit "test.7z") None (PInt 3)) (lit "Everything is Ok")).
  reflexivity.
Defined.

(** X2: whatever the arguments, the only program a call runs is
    [EXE_PATH], at most once, with the command letter of the function as
    its first argument: [a] to create, [t] to test, [e] or [x] to
    extract. *)
Theorem X2_only_the_executable_is_run (w : World) (c : call)
    (command : list str) :
  In command (spawned (effects w c)) ->
  spawned (effects w c) = [command]
  /\ nth_error command 0 = Some (EXE_PATH w)
  /\ nth_error command 1 = Some (command_letter c).
Proof.
  unfold effects.
  destruct c as [files archive password eh ov verbose volumes
                |archive password verbose
                |archive into_dir password flat ov verbose]; simpl.
  - destruct (archive_create_case w files archive password eh ov volumes)
      as [name items _ H|_ _ H|_ _ _ _ H|_ _ _ _ H|_ _ H|p _ _ _ _ H|_ _ H];
      rewrite (H verbose); try (intros []).
    rewrite invoke_spawned. intros [<-|[]]. repeat split.
  - destruct (archive_test_case w archive password)
      as [_ H|p _ _ _ H|_ H];
      rewrite (H verbose); try (intros []).
    rewrite invoke_spawned. intros [<-|[]]. repeat split.
  - destruct (archive_extract_case w archive into_dir password flat ov)
      as [_ H|_ _ H|_ _ _ H|ch _ _ _ _ _ H|_ _ _ _ _ H|p _ _ _ H|_ _ _ H
         |code _ _ _ H];
      rewrite (H verbose); try (intros []).
    rewrite invoke_spawned. intros [<-|[]]. repeat split.
Qed.

(** X2 on the sample host. *)
Lemma X2_only_the_executable_is_run_witness :
  spawned (effects (Sample.host Sample.silent)
                   (Extract (lit "test.7z") None None true (PBool true) (PInt 0)))
  = [extract_command (Sample.host Sample.silent) (lit "test.7z") None None true
                     (lit "a") (PInt 0)]
  /\ nth_error (extract_command (Sample.host Sample.silent) (lit "test.7z")
                                None None true (lit "a") (PInt 0)) 0
     = Some (lit "/opt/py7z/7-zip/x64/7z.exe")
  /\ nth_error (extract_command (Sample.host Sample.silent) (lit "test.7z")
                                None None true (lit "a") (PInt 0)) 1
     = Some (lit "e").
Proof.
  apply (@X2_only_the_executable_is_run (Sample.host Sample.silent)
           (Extract (lit "test.7z") None None true (PBool true) (PInt 0))).
  left. reflexivity.
Defined.

(** X3: a call writes to [sys.stderr] only when [archive_create] refuses
    a list of paths for a shared base name; [archive_test] and
    [archive_extract] never write to it, and no call that runs a process
    does. *)
Theorem X3_stderr_only_on_conflict (w : World) (c : call) :
  stderr (effects w c) <> [] ->
  exists files archive password encrypt_headers overwrite verbose volumes name,
    c = Create files archive password encrypt_headers overwrite verbose volumes
    /\ conflict w files name
    /\ outcome w c = Raise (ValueError name)
    /\ spawned (effects w c) = [].
Proof.
  unfold effects, outcome.
  destruct c as [files archive password eh ov verbose volumes
                |archive password verbose
                |archive into_dir password flat ov verbose]; simpl.
  - destruct (archive_create_case w files archive password eh ov volumes)
      as [name items Hc H|_ _ H|_ _ _ _ H|_ _ _ _ H|_ _ H|p _ _ _ _ H|_ _ H];
      rewrite (H verbose); try rewrite invoke_run; simpl;
      try (intros Hne; now contradiction Hne).
    intros _. exists files, archive, password, eh, ov, verbose, volumes, name.
    repeat split. exact Hc.
  - destruct (archive_test_case w archive password)
      as [_ H|p _ _ _ H|_ H];
      rewrite (H verbose); try rewrite invoke_run; simpl;
      intros Hne; now contradiction Hne.
  - destruct (archive_extract_case w archive into_dir password flat ov)
      as [_ H|_ _ H|_ _ _ H|ch _ _ _ _ _ H|_ _ _ _ _ H|p _ _ _ H|_ _ _ H
         |code _ _ _ H];
      rewrite (H verbose); try rewrite invoke_run; simpl;
      intros Hne; now contradiction Hne.
Qed.

(** X3 on the sample host. *)
Lemma X3_stderr_only_on_conflict_witness :
  exists files archive password encrypt_headers overwrite verbose volumes name,
    Create [lit "a/x.txt"; lit "b/x.txt"] (lit "new.7z") None false false
           (PInt 3) None
    = Create files archive password encrypt_headers overwrite verbose volumes
    /\ conflict (Sample.host Sample.ok) files name
    /\ outcome (Sample.host Sample.ok)
               (Create [lit "a/x.txt"; lit "b/x.txt"] (lit "new.7z") None false
                       false (PInt 3) None)
       = Raise (ValueError name)
    /\ spawned (effects (Sample.host Sample.ok)
                        (Create [lit "a/x.txt"; lit "b/x.txt"] (lit "new.7z")
                                None false false (PInt 3) None)) = [].
Proof.
  apply (@X3_stderr_only_on_conflict (Sample.host Sample.ok)
           (Create [lit "a/x.txt"; lit "b/x.txt"] (lit "new.7z") None false
                   false (PInt 3) None)).
  discriminate.
Defined.

Lemma verdict_raise (w : World) (command : list str) (e : exn) :
  verdict w command = Raise e ->
  match e with
  | ValueError _ | NotImplementedError _ => False
  | CalledProcessError returncode command' output =>
      command' = command /\ run w command = (returncode, output)
      /\ returncode <> 0%Z
  | UnicodeDecodeError output =>
      run w command = (0%Z, output) /\ Cp1252.decode output = None
  | AssertionError msg =>
      exists text,
        msg = Some (lit "something went wrong: " ++ text)
        /\ str_in MARKER text = false
  end.
Proof.
  unfold verdict. destruct (run w command) as [returncode output].
  destruct (Z.eqb returncode 0) eqn:Hrc.
  - apply Z.eqb_eq in Hrc. subst returncode.
    destruct (Cp1252.decode output) as [t|] eqn:Hd.
    + destruct (str_in MARKER t) eqn:Hm; [discriminate|].
      intros [= <-]. exists t. now split.
    + intros [= <-]. now split.
  - apply Z.eqb_neq in Hrc. intros [= <-]. now repeat split.
Qed.



(* ------------------------------------------------------------------ *)
(** ** Checks made and checks not made *)

(** X5: [archive_test] looks at nothing but the password: whatever is or
    is not at the archive path, a call whose password is absent or
    non-empty without a double quote prints nothing and hands over exactly
    one vector: the executable, [t], the absolute archive path, [-p] with
    the password (DEL when absent), [-bb] with the verbosity and [-bt]. *)
Theorem X5_test_checks_no_file (w : World) (archive : str)
    (password : option str) (verbose : pyval) :
  password_ok password ->
  effects w (Test archive password verbose)
  = {| stderr := [];
       spawned := [[EXE_PATH w; lit "t"; abspath w archive;
                    lit "-p" ++ match password with None => DEL | Some p => p end;
                    lit "-bb" ++ py_str verbose; lit "-bt"]] |}.
Proof.
  intros Hok. unfold effects. simpl.
  destruct (archive_test_case w archive password) as [E _|p E _ Hq _|_ H].
  - destruct (Hok [] E) as [Hne _]. now contradiction Hne.
  - destruct (Hok p E) as [_ Hq']. congruence.
  - rewrite (H verbose), invoke_run. reflexivity.
Qed.

(** X5 on the sample host, for an archive that does not exist. *)
Lemma X5_test_checks_no_file_witness :
  isfile (Sample.host Sample.silent) (lit "/home/u/missing.7z") = false
  /\ effects (Sample.host Sample.silent)
             (Test (lit "missing.7z") (Some (lit "pw")) (PInt 1))
     = {| stderr := [];
          spawned := [[lit "/opt/py7z/7-zip/x64/7z.exe"; lit "t";
                       lit "/home/u/missing.7z"; lit "-ppw"; lit "-bb1";
                       lit "-bt"]] |}.
Proof.
  split; [reflexivity|].
  apply (@X5_test_checks_no_file (Sample.host Sample.silent)
           (lit "missing.7z") (Some (lit "pw")) (PInt 1)).
  intros p [= <-]. split; [discriminate | reflexivity].
Defined.

(** X6: an empty password is refused by all three functions with the
    assertion "password must be at least one character long", before any
    process is started: by [archive_test] always, by [archive_create] when
    the checks on the paths and on the volumes pass, by [archive_extract]
    when the archive exists. *)
Theorem X6_empty_password_rejected (w : World) (c : call) :
  password_of c = Some [] ->
  checks_before_password w c ->
  exec w c no_effects
  = (Raise (AssertionError
              (Some (lit "password must be at least one character long"))),
     no_effects).
Proof.
  assert (Hnok : ~ password_ok (Some [])).
  { intros Hok. destruct (Hok [] eq_refl) as [Hne _]. now contradiction Hne. }
  destruct c as [files archive password eh ov verbose volumes
                |archive password verbose
                |archive into_dir password flat ov verbose];
    simpl; intros -> Hch.
  - destruct Hch as (Hu & Hd & Hf & Hv).
    destruct (archive_create_case w files archive (Some []) eh ov volumes)
      as [name items Hc _|_ Hd' _|_ _ Hov Hf' _|_ _ _ Hv' _|_ _ H
         |p _ E Hp _ _|_ Hok _].
    + now destruct (conflict_not_unique Hc).
    + congruence.
    + destruct Hf; congruence.
    + contradiction.
    + apply H.
    + injection E as <-. now contradiction Hp.
    + contradiction.
  - destruct (archive_test_case w archive (Some []))
      as [_ H|p E Hp _ _|Hok _].
    + apply H.
    + injection E as <-. now contradiction Hp.
    + contradiction.
  - destruct (archive_extract_case w archive into_dir (Some []) flat ov)
      as [Ha _|_ _ H|_ Hne _ _|ch _ Hne _ _ _ _|_ Hne _ _ _ _
         |p (_ & Hne & _) _ _ _|_ Hok _ _|code _ Hok _ _].
    + congruence.
    + apply H.
    + now contradiction Hne.
    + now contradiction Hne.
    + now contradiction Hne.
    + now contradiction Hne.
    + contradiction.
    + contradiction.
Qed.

(** X6 on the sample host. *)
Lemma X6_empty_password_rejected_witness :
  exec (Sample.host Sample.ok)
       (Extract (lit "test.7z") (Some (lit "a:b")) (Some []) false (PInt 7)
                (PInt 3)) no_effects
  = (Raise (AssertionError
              (Some (lit "password must be at least one character long"))),
     no_effects).
Proof.
  apply (@X6_empty_password_rejected (Sample.host Sample.ok)
           (Extract (lit "test.7z") (Some (lit "a:b")) (Some []) false (PInt 7)
                    (PInt 3))).
  - reflexivity.
  - reflexivity.
Defined.

(** X7: [archive_extract] checks first that a regular file is at the
    absolute archive path: when none is, the call fails with the assertion
    "archive does not exist at provided path" whatever the other arguments
    are, and nothing is printed or started. *)
Theorem X7_extract_needs_the_archive (w : World) (archive : str)
    (into_dir password : option str) (flat : bool) (overwrite verbose : pyval) :
  isfile w (abspath w archive) = false ->
  exec w (Extract archive into_dir password flat overwrite verbose) no_effects
  = (Raise (AssertionError
              (Some (lit "archive does not exist at provided path"))),
     no_effects).
Proof.
  intros Ha. simpl.
  destruct (archive_extract_case w archive into_dir password flat overwrite)
    as [_ H|Ha' _ _|Ha' _ _ _|ch Ha' _ _ _ _ _|Ha' _ _ _ _ _
       |p (Ha' & _) _ _ _|(Ha' & _) _ _ _|code (Ha' & _) _ _ _];
    [apply H | congruence ..].
Qed.

(** X7 on the sample host. *)
Lemma X7_extract_needs_the_archive_witness :
  exec (Sample.host Sample.ok)
       (Extract (lit "out") (Some []) (Some []) true PNone PNone) no_effects
  = (Raise (AssertionError
              (Some (lit "archive does not exist at provided path"))),
     no_effects).
Proof.
  apply (@X7_extract_needs_the_archive (Sample.host Sample.ok) (lit "out")
           (Some []) (Some []) true PNone PNone).
  reflexivity.
Defined.

(** X8: on a host whose [abspath] never gives the empty string, as
    [os.path.abspath] never does, no call to [archive_extract] fails with
    the assertion "output dir name must be at least one character long":
    the check is made on the absolute path, which is never empty. *)
Theorem X8_dest_length_check_never_fails (w : World) (archive : str)
    (into_dir password : option str) (flat : bool) (overwrite verbose : pyval) :
  (forall p, abspath w p <> []) ->
  outcome w (Extract archive into_dir password flat overwrite verbose)
  <> Raise (AssertionError
              (Some (lit "output dir name must be at least one character long"))).
Proof.
  intros Habs. unfold outcome. simpl.
  destruct (archive_extract_case w archive into_dir password flat overwrite)
    as [_ H|_ _ H|_ _ Hd _|ch _ _ _ _ _ H|_ _ _ _ _ H|p _ _ _ H|_ _ _ H
       |code _ _ _ H];
    try (rewrite (H verbose); simpl; discriminate).
  - now destruct (Habs _ Hd).
  - rewrite (H verbose), invoke_outcome. intros Hv.
    apply verdict_raise in Hv. destruct Hv as (text & E & _). discriminate.
Qed.

(** X8 on the sample host. *)
Lemma X8_dest_length_check_never_fails_witness :
  outcome (Sample.host Sample.ok)
          (Extract (lit "test.7z") (Some (lit "  ")) None false (PBool true)
                   (PInt 3))
  <> Raise (AssertionError
              (Some (lit "output dir name must be at least one character long"))).
Proof.
  apply (@X8_dest_length_check_never_fails (Sample.host Sample.ok)
           (lit "test.7z") (Some (lit "  ")) None false (PBool true) (PInt 3)).
  intros p. apply posix_abspath_nonempty.
Defined.

(* ------------------------------------------------------------------ *)
(** ** White space in the arguments *)

Lemma lstrip_blank (s : str) : forallb isspace s = true -> lstrip s = [].
Proof.
  induction s as [|c s IH]; simpl; [reflexivity|].
  intros H. apply andb_true_iff in H. destruct H as [Hc Hs].
  rewrite Hc. now apply IH.
Qed.

Lemma split_from_blank (s : str) :
  forallb isspace s = true -> split_from [] s = [].
Proof.
  induction s as [|c s IH]; simpl; [reflexivity|].
  intros H. apply andb_true_iff in H. destruct H as [Hc Hs].
  rewrite Hc. now apply IH.
Qed.

Lemma strip_blank (s : str) : forallb isspace s = true -> strip s = [].
Proof.
  intros H. unfold strip. now rewrite lstrip_blank by exact H.
Qed.

Lemma lstrip_snoc (s : str) (c : char) :
  isspace c = false -> lstrip (s ++ [c]) = lstrip s ++ [c].
Proof.
  intros Hc. induction s as [|x s IH]; simpl.
  - now rewrite Hc.
  - destruct (isspace x); [exact IH | reflexivity].
Qed.

Lemma lstrip_snoc_space (s : str) (c : char) :
  isspace c = true ->
  lstrip (s ++ [c]) = if forallb isspace s then [] else lstrip s ++ [c].
Proof.
  intros Hc. induction s as [|x s IH]; simpl.
  - now rewrite Hc.
  - destruct (isspace x); [exact IH | reflexivity].
Qed.

Lemma forallb_rev (A : Type) (f : A -> bool) (l : list A) :
  forallb f (rev l) = forallb f l.
Proof.
  induction l as [|a l IH]; simpl; [reflexivity|].
  rewrite forallb_app, IH. simpl. rewrite andb_true_r. apply andb_comm.
Qed.

Lemma rstrip_cons (c : char) (s : str) :
  rstrip (c :: s) =
  if isspace c && forallb isspace s then [] else c :: rstrip s.
Proof.
  unfold rstrip. simpl rev at 2.
  destruct (isspace c) eqn:Hc; simpl andb.
  - rewrite lstrip_snoc_space by exact Hc. rewrite forallb_rev.
    destruct (forallb isspace s); [reflexivity|].
    rewrite rev_app_distr. reflexivity.
  - rewrite lstrip_snoc by exact Hc. rewrite rev_app_distr. reflexivity.
Qed.

(** White space at either end of the string gives no token. *)
Lemma split_from_rstrip (s word : str) :
  split_from word (rstrip s) = split_from word s.
Proof.
  revert word. induction s as [|c s IH]; intros word; [reflexivity|].
  rewrite rstrip_cons. destruct (isspace c) eqn:Hc; simpl andb.
  - destruct (forallb isspace s) eqn:Hs.
    + simpl. rewrite Hc. rewrite split_from_blank by exact Hs. now destruct word.
    + simpl. rewrite Hc. destruct word; now rewrite IH.
  - simpl. rewrite Hc. apply IH.
Qed.

Lemma split_lstrip (s : str) : split (lstrip s) = split s.
Proof.
  unfold split. induction s as [|c s IH]; simpl; [reflexivity|].
  destruct (isspace c) eqn:Hc; [exact IH|].
  simpl. now rewrite Hc.
Qed.

Lemma split_from_concat (s word : str) :
  List.concat (split_from word s)
  = rev word ++ filter (fun c => negb (isspace c)) s.
Proof.
  revert word. induction s as [|c s IH]; intros word; simpl.
  - destruct word; simpl; now rewrite ?app_nil_r.
  - destruct (isspace c) eqn:Hc; simpl.
    + destruct word as [|x word]; simpl; rewrite IH; reflexivity.
    + rewrite IH. simpl. now rewrite <- app_assoc.
Qed.

(** X9: the tokens of the volume spec.  Stripping the spec before
    splitting it changes nothing; every token is non-empty and free of
    white space; and the tokens, put end to end, are the characters of the
    spec that are not white space, in their order. *)
Theorem X9_volume_tokens (volumes : str) :
  split (strip volumes) = split volumes
  /\ (forall size, In size (split (strip volumes)) ->
        size <> [] /\ forallb (fun c => negb (isspace c)) size = true)
  /\ List.concat (split (strip volumes))
     = filter (fun c => negb (isspace c)) volumes.
Proof.
  assert (E : split (strip volumes) = split volumes).
  { unfold strip, split. rewrite split_from_rstrip. apply split_lstrip. }
  rewrite E. split; [reflexivity|]. split.
  - intros size. apply split_tokens.
  - unfold split. now rewrite split_from_concat.
Qed.

(** X10: a volume spec made of white space only is not refused, and
    gives no [-v] flag: the call goes as it does without a volume spec. *)
Theorem X10_blank_volumes (w : World) (files : list str) (archive : str)
    (password : option str) (encrypt_headers overwrite : bool)
    (verbose : pyval) (volumes : str) :
  volumes <> [] -> forallb isspace volumes = true ->
  exec w (Create files archive password encrypt_headers overwrite verbose
                 (Some volumes)) no_effects
  = exec w (Create files archive password encrypt_headers overwrite verbose
                   None) no_effects.
Proof.
  intros Hne Hblank. apply length_pos in Hne. simpl. unfold archive_create.
  rewrite strip_blank by exact Hblank. rewrite Hne. reflexivity.
Qed.

(** X10 on the sample host. *)
Lemma X10_blank_volumes_witness :
  exec (Sample.host Sample.ok)
       (Create [lit "cmds.txt"] (lit "new.7z") None false false (PInt 3)
               (Some (lit "  "))) no_effects
  = exec (Sample.host Sample.ok)
         (Create [lit "cmds.txt"] (lit "new.7z") None false false (PInt 3) None)
         no_effects.
Proof.
  apply (@X10_blank_volumes (Sample.host Sample.ok) [lit "cmds.txt"]
           (lit "new.7z") None false false (PInt 3) (lit "  ")).
  - discriminate.
  - reflexivity.
Defined.

(** X11: an empty volume spec is refused: when the base names are unique
    and the archive path is free, the call fails with an assertion without
    a message, before the password is looked at and before any process is
    started. *)
Theorem X11_empty_volumes_rejected (w : World) (files : list str)
    (archive : str) (password : option str) (encrypt_headers overwrite : bool)
    (verbose : pyval) :
  unique_basenames w files ->
  isdir w (abspath w archive) = false ->
  (overwrite = true \/ isfile w (abspath w archive) = false) ->
  exec w (Create files archive password encrypt_headers overwrite verbose
                 (Some [])) no_effects
  = (Raise (AssertionError None), no_effects).
Proof.
  intros Hu Hd Hf. simpl.
  destruct (archive_create_case w files archive password encrypt_headers
                                overwrite (Some []))
    as [name items Hc _|_ Hd' _|_ _ Hov Hf' _|_ _ _ _ H|(_ & _ & _ & Hv) _ _
       |p (_ & _ & _ & Hv) _ _ _ _|(_ & _ & _ & Hv) _ _].
  - now destruct (conflict_not_unique Hc).
  - congruence.
  - destruct Hf; congruence.
  - apply H.
  - now contradiction Hv.
  - now contradiction Hv.
  - now contradiction Hv.
Qed.

(** X11 on the sample host. *)
Lemma X11_empty_volumes_rejected_witness :
  exec (Sample.host Sample.ok)
       (Create [lit "cmds.txt"] (lit "new.7z") (Some []) true false (PInt 3)
               (Some [])) no_effects
  = (Raise (AssertionError None), no_effects).
Proof.
  apply (@X11_empty_volumes_rejected (Sample.host Sample.ok) [lit "cmds.txt"]
           (lit "new.7z") (Some []) true false (PInt 3)).
  - apply unique_basenamesb_spec. reflexivity.
  - reflexivity.
  - right. reflexivity.
Defined.

Lemma lstrip_head (s : str) :
  lstrip s = [] \/ exists c r, lstrip s = c :: r /\ isspace c = false.
Proof.
  induction s as [|c s IH]; simpl; [now left|].
  destruct (isspace c) eqn:Hc; [exact IH|].
  right. exists c, s. now split.
Qed.

Lemma lstrip_idem (s : str) : lstrip (lstrip s) = lstrip s.
Proof.
  destruct (lstrip_head s) as [->|(c & r & -> & Hc)]; simpl; [reflexivity|].
  now rewrite Hc.
Qed.

Lemma strip_idem (s : str) : strip (strip s) = strip s.
Proof.
  unfold strip.
  assert (E : lstrip (rstrip (lstrip s)) = rstrip (lstrip s)).
  { destruct (lstrip_head s) as [->|(c & r & -> & Hc)]; [reflexivity|].
    rewrite rstrip_cons, Hc. simpl. now rewrite Hc. }
  rewrite E. unfold rstrip. now rewrite rev_involutive, lstrip_idem.
Qed.

(** X12: [archive_extract] ignores white space around the name of the
    output directory, so a name and the same name stripped make the same
    call; and without a name the call is the one made with [.], the
    current directory. *)
Theorem X12_into_dir_is_stripped (w : World) (archive into_dir : str)
    (password : option str) (flat : bool) (overwrite verbose : pyval) :
  exec w (Extract archive (Some into_dir) password flat overwrite verbose)
       no_effects
  = exec w (Extract archive (Some (strip into_dir)) password flat overwrite
                    verbose) no_effects
  /\ exec w (Extract archive None password flat overwrite verbose) no_effects
     = exec w (Extract archive (Some (lit ".")) password flat overwrite verbose)
            no_effects.
Proof.
  split; [|reflexivity].
  simpl. unfold archive_extract. now rewrite strip_idem.
Qed.

Example extract_stripped_name :
  spawned (effects (Sample.host Sample.ok)
                   (Extract (lit "test.7z") (Some (lit "  out ")) None false
                            (PBool true) (PInt 3)))
  = [[lit "/opt/py7z/7-zip/x64/7z.exe"; lit "x"; lit "-o/home/u/out";
      lit "-p" ++ DEL; lit "-aoa"; lit "-bb3"; lit "-bt";
      lit "/home/u/test.7z"]].
Proof. reflexivity. Qed.

(* ------------------------------------------------------------------ *)
(** ** The report of a naming conflict *)




Section Keys.

Variable w : World.

Local Abbreviation enter :=
  (fun (seen : seen_dict) (item_path : str) =>
     setdefault_add (basename w item_path) item_path seen).






End Keys.














(* ------------------------------------------------------------------ *)
(** ** Decoding the output *)

Lemma decode_byte_low (b : byte) (c : char) :
  Cp1252.decode_byte b = Some c ->
  N.ltb c 128 = N.ltb (Byte.to_N b) 128
  /\ (N.ltb (Byte.to_N b) 128 = true -> c = Byte.to_N b).
Proof.
  intros H. destruct b; vm_compute in H; try discriminate H;
    injection H as <-; split; vm_compute; try reflexivity;
    intros H'; (reflexivity || discriminate H').
Qed.

Lemma decode_byte_none (b : byte) :
  Cp1252.decode_byte b = None <-> undecodable b.
Proof.
  unfold undecodable.
  destruct b; vm_compute; split; intros H; try discriminate H;
    try reflexivity;
    repeat (destruct H as [H|H]; [discriminate H|]); try destruct H;
    auto 6.
Qed.

Lemma decode_none (output : bytes) :
  Cp1252.decode output = None <-> exists b, In b output /\ undecodable b.
Proof.
  induction output as [|x output IH]; simpl.
  - split; [discriminate|intros (b & [] & _)].
  - destruct (Cp1252.decode_byte x) as [c|] eqn:Hx.
    + destruct (Cp1252.decode output) as [s|].
      * split; [discriminate|].
        intros (b & [<-|Hb] & Hu).
        -- apply decode_byte_none in Hu. congruence.
        -- assert (Hn : Some s = None) by (apply IH; now exists b).
           discriminate Hn.
      * split; [|reflexivity]. intros _.
        destruct (proj1 IH eq_refl) as (b & Hb & Hu).
        exists b. split; [now right|assumption].
    + split; [|reflexivity]. intros _. exists x. split; [now left|].
      now apply decode_byte_none.
Qed.

Lemma N_of_ascii_byte (a : ascii) :
  Byte.to_N (byte_of_ascii a) = N_of_ascii a.
Proof. destruct a as [[] [] [] [] [] [] [] []]; reflexivity. Qed.

Lemma startswith_decode (needle : list ascii) (output : bytes) (text : str) :
  forallb (fun a => N.ltb (N_of_ascii a) 128) needle = true ->
  Cp1252.decode output = Some text ->
  startswith (map N_of_ascii needle) text
  = bytes_startswith (map byte_of_ascii needle) output.
Proof.
  revert output text. induction needle as [|a needle IH];
    intros output text Hlow Hdec; [reflexivity|].
  simpl in Hlow. apply andb_true_iff in Hlow. destruct Hlow as [Ha Hlow].
  destruct output as [|x output]; simpl in Hdec.
  - injection Hdec as <-. reflexivity.
  - destruct (Cp1252.decode_byte x) as [c|] eqn:Hx; [|discriminate].
    destruct (Cp1252.decode output) as [s|] eqn:Hs; [|discriminate].
    injection Hdec as <-. simpl.
    rewrite (IH output s Hlow Hs), N_of_ascii_byte. f_equal.
    destruct (decode_byte_low _ Hx) as [Hlt Heq].
    destruct (N.ltb (Byte.to_N x) 128) eqn:Hxl.
    + now rewrite (Heq eq_refl).
    + apply N.ltb_lt in Ha. apply N.ltb_ge in Hlt, Hxl.
      transitivity false; [|symmetry]; apply N.eqb_neq; intros E;
        rewrite E in Ha.
      * now apply N.lt_nge in Ha.
      * now apply N.lt_nge in Ha.
Qed.

Lemma str_in_decode (needle : list ascii) (output : bytes) (text : str) :
  forallb (fun a => N.ltb (N_of_ascii a) 128) needle = true ->
  Cp1252.decode output = Some text ->
  str_in (map N_of_ascii needle) text
  = bytes_in (map byte_of_ascii needle) output.
Proof.
  intros Hlow. revert text. induction output as [|x output IH]; intros text Hdec.
  - simpl in Hdec. injection Hdec as <-. simpl.
    now rewrite (startswith_decode needle [] Hlow eq_refl).
  - pose proof (startswith_decode needle (x :: output) Hlow Hdec) as Hs.
    simpl in Hdec.
    destruct (Cp1252.decode_byte x) as [c|] eqn:Hx; [|discriminate].
    destruct (Cp1252.decode output) as [s|] eqn:Hd; [|discriminate].
    injection Hdec as <-. cbn [str_in bytes_in].
    now rewrite Hs, (IH s eq_refl).
Qed.

(** A call that has run a process ends as the verdict on that run says. *)
Lemma outcome_after_run (w : World) (c : call) (command : list str) :
  spawned (effects w c) = [command] -> outcome w c = verdict w command.
Proof.
  unfold effects, outcome. rewrite <- (with_verbose_id c).
  destruct (exec_cases w c) as [(e & t & _ & Ht & H)|[mk H]].
  - rewrite H. simpl. rewrite Ht. discriminate.
  - destruct (H (verbose_of c)) as [-> _].
    rewrite invoke_spawned, invoke_outcome. now intros [= ->].
Qed.

(** X15: decoding does not change what the success check sees.  When the
    process exits with status 0 and its output is valid cp1252, the call
    returns exactly when the bytes of "Everything is Ok" occur in the
    output as it was written. *)
Theorem X15_marker_is_looked_for_in_bytes (w : World) (c : call)
    (command : list str) (output : bytes) (text : str) :
  spawned (effects w c) = [command] ->
  run w command = (0%Z, output) ->
  Cp1252.decode output = Some text ->
  str_in MARKER text
  = bytes_in (Cp1252.ascii_bytes "Everything is Ok") output
  /\ (outcome w c = Return text
      <-> bytes_in (Cp1252.ascii_bytes "Everything is Ok") output = true).
Proof.
  intros Hsp Hrun Hdec.
  assert (E : str_in MARKER text
              = bytes_in (Cp1252.ascii_bytes "Everything is Ok") output).
  { apply (str_in_decode (list_ascii_of_string "Everything is Ok"));
      [reflexivity | exact Hdec]. }
  split; [exact E|].
  rewrite (outcome_after_run _ _ Hsp). unfold verdict.
  rewrite Hrun, Hdec. simpl Z.eqb. cbv iota. rewrite E.
  destruct (bytes_in _ output); split; intros H;
    try reflexivity; discriminate H.
Qed.

(** X15 on the sample host. *)
Lemma X15_marker_is_looked_for_in_bytes_witness :
  str_in MARKER (lit "Everything is Ok")
  = bytes_in (Cp1252.ascii_bytes "Everything is Ok")
             (Cp1252.ascii_bytes "Everything is Ok")
  /\ (outcome (Sample.host Sample.ok) (Test (lit "test.7z") None (PInt 3))
      = Return (lit "Everything is Ok")
      <-> bytes_in (Cp1252.ascii_bytes "Everything is Ok")
                   (Cp1252.ascii_bytes "Everything is Ok") = true).
Proof.
  apply (@X15_marker_is_looked_for_in_bytes (Sample.host Sample.ok)
           (Test (lit "test.7z") None (PInt 3))
           (test_command (Sample.host Sample.ok) (lit "test.7z") None (PInt 3))
           (Cp1252.ascii_bytes "Everything is Ok") (lit "Everything is Ok"));
    reflexivity.
Defined.

(** X16: one byte that cp1252 gives no character to (0x81, 0x8D, 0x8F,
    0x90 or 0x9D) anywhere in the output of a process that exited with
    status 0 makes the call fail with [UnicodeDecodeError], whether the
    marker is in the output or not. *)
Theorem X16_undecodable_output_fails (w : World) (c : call)
    (command : list str) (output : bytes) (b : byte) :
  spawned (effects w c) = [command] ->
  run w command = (0%Z, output) ->
  In b output -> undecodable b ->
  outcome w c = Raise (UnicodeDecodeError output).
Proof.
  intros Hsp Hrun Hb Hu.
  rewrite (outcome_after_run _ _ Hsp). unfold verdict. rewrite Hrun.
  assert (Hd : Cp1252.decode output = None)
    by (apply decode_none; now exists b).
  now rewrite Hd.
Qed.

(** X16 on the sample host, for an output that holds the marker. *)
Lemma X16_undecodable_output_fails_witness :
  outcome (Posix.world Sample.home [lit "/home/u/test.7z"] []
                       (fun _ => (0%Z, x81 :: Cp1252.ascii_bytes "Everything is Ok")))
          (Test (lit "test.7z") None (PInt 3))
  = Raise (UnicodeDecodeError (x81 :: Cp1252.ascii_bytes "Everything is Ok")).
Proof.
  apply (@X16_undecodable_output_fails
           (Posix.world Sample.home [lit "/home/u/test.7z"] []
                        (fun _ => (0%Z, x81 :: Cp1252.ascii_bytes "Everything is Ok")))
           (Test (lit "test.7z") None (PInt 3))
           [lit "/opt/py7z/7-zip/x64/7z.exe"; lit "t"; lit "/home/u/test.7z";
            lit "-p" ++ DEL; lit "-bb3"; lit "-bt"]
           (x81 :: Cp1252.ascii_bytes "Everything is Ok") x81).
  - reflexivity.
  - reflexivity.
  - left. reflexivity.
  - unfold undecodable. simpl. left. reflexivity.
Defined.

(* ------------------------------------------------------------------ *)
(** ** Importing the module: the executable *)

(** [sys.maxsize] of a host of [n] bits has [n - 1] bits. *)
Lemma bit_length_word (n : Z) :
  (1 <= n)%Z -> Init.bit_length (2 ^ (n - 1) - 1) = (n - 1)%Z.
Proof.
  intros Hn. unfold Init.bit_length.
  destruct (Z.eq_dec n 1) as [->|Hne]; [reflexivity|].
  assert (Hpos : (0 < n - 1)%Z) by lia.
  assert (Hpow : (2 <= 2 ^ (n - 1))%Z).
  { change 2%Z with (2 ^ 1)%Z at 1. apply Z.pow_le_mono_r; lia. }
  destruct (Z.eqb_spec (2 ^ (n - 1) - 1) 0) as [E|_]; [lia|].
  rewrite Z.abs_eq by lia.
  change (2 ^ (n - 1) - 1)%Z with (Z.pred (2 ^ (n - 1))).
  rewrite Z.log2_pred_pow2 by exact Hpos. lia.
Qed.

(** X17: when the import succeeds, [EXE_PATH] is a path that exists:
    the 64-bit executable, which is only taken when the host has 64 bits,
    or the 32-bit one. *)
Theorem X17_import_binds_an_existing_executable (h : Init.Host) (p : str) :
  Init.exists_ h [] = false ->
  Init.import_module h = Init.Imported p ->
  Init.exists_ h p = true
  /\ ((Init.bit_length (Init.maxsize h) + 1 = 64)%Z /\ p = Init.x64_path h
      \/ p = Init.x32_path h).
Proof.
  intros Hempty. unfold Init.import_module.
  fold (Init.x64_path h). fold (Init.x32_path h).
  destruct (negb _); [discriminate|].
  destruct (Z.eqb_spec (Init.bit_length (Init.maxsize h) + 1) 64) as [E|_].
  - destruct (Init.exists_ h (Init.x64_path h)) eqn:H64; simpl negb; cbv iota.
    + rewrite H64. intros [= <-]. split; [assumption|]. left. now split.
    + destruct (Init.exists_ h (Init.x32_path h)) eqn:H32; [|discriminate].
      intros [= <-]. split; [assumption|]. now right.
  - rewrite Hempty. simpl negb. cbv iota.
    destruct (Init.exists_ h (Init.x32_path h)) eqn:H32; [|discriminate].
    intros [= <-]. split; [assumption|]. now right.
Qed.

(** X17 on a 64-bit POSIX host that only has the 32-bit executable. *)
Lemma X17_import_binds_an_existing_executable_witness :
  Init.exists_ (Init.posix_host 64 [lit "/opt/py7z/7-zip/x32/7z.exe"])
               (lit "/opt/py7z/7-zip/x32/7z.exe") = true
  /\ ((Init.bit_length
         (Init.maxsize (Init.posix_host 64 [lit "/opt/py7z/7-zip/x32/7z.exe"]))
       + 1 = 64)%Z
      /\ lit "/opt/py7z/7-zip/x32/7z.exe"
         = Init.x64_path (Init.posix_host 64 [lit "/opt/py7z/7-zip/x32/7z.exe"])
      \/ lit "/opt/py7z/7-zip/x32/7z.exe"
         = Init.x32_path (Init.posix_host 64 [lit "/opt/py7z/7-zip/x32/7z.exe"])).
Proof.
  apply (@X17_import_binds_an_existing_executable
           (Init.posix_host 64 [lit "/opt/py7z/7-zip/x32/7z.exe"])
           (lit "/opt/py7z/7-zip/x32/7z.exe")).
  - reflexivity.
  - reflexivity.
Defined.

(** X18: the import goes past the check of the word size exactly on hosts
    of 32 or 64 bits.  On a host of [n] bits, where [sys.maxsize] is
    [2^(n-1) - 1], it raises [OSError] with a message that ends in [n]
    when [n] is neither 32 nor 64, and never raises [OSError] otherwise. *)
Theorem X18_import_refuses_other_word_sizes (h : Init.Host) (n : Z) :
  (1 <= n)%Z ->
  Init.maxsize h = (2 ^ (n - 1) - 1)%Z ->
  (n <> 32%Z -> n <> 64%Z ->
   Init.import_module h
   = Init.RaisedOSError
       (lit "could not determine if system is 32-bit or 64-bit: "
        ++ py_str (PInt n)))
  /\ (n = 32%Z \/ n = 64%Z ->
      forall msg, Init.import_module h <> Init.RaisedOSError msg).
Proof.
  intros Hn Hmax. unfold Init.import_module.
  rewrite Hmax, bit_length_word by exact Hn.
  replace (n - 1 + 1)%Z with n by lia. split.
  - intros H32 H64. simpl existsb.
    apply Z.eqb_neq in H32, H64. now rewrite H32, H64.
  - intros [-> | ->] msg; simpl existsb; simpl negb; cbv iota;
      repeat match goal with
             | |- context [if ?b then _ else _] => destruct b
             end; discriminate.
Qed.

(** X18 on a 16-bit POSIX host. *)
Lemma X18_import_refuses_other_word_sizes_witness :
  Init.import_module (Init.posix_host 16 [lit "/opt/py7z/7-zip/x32/7z.exe"])
  = Init.RaisedOSError
      (lit "could not determine if system is 32-bit or 64-bit: 16").
Proof.
  apply (proj1 (@X18_import_refuses_other_word_sizes
                  (Init.posix_host 16 [lit "/opt/py7z/7-zip/x32/7z.exe"]) 16
                  ltac:(discriminate) eq_refl));
    discriminate.
Defined.

(** X19: which executable the import takes.  A host of 64 bits takes the
    64-bit executable when it exists and falls back to the 32-bit one; a
    host of 32 bits only ever takes the 32-bit one; when the executable
    looked for is not there, the import fails with the assertion "could
    not find 7-zip executable". *)
Theorem X19_import_chooses_the_executable (h : Init.Host) (n : Z) :
  Init.maxsize h = (2 ^ (n - 1) - 1)%Z ->
  n = 32%Z \/ n = 64%Z ->
  Init.exists_ h [] = false ->
  Init.import_module h
  = if Z.eqb n 64 && Init.exists_ h (Init.x64_path h)
    then Init.Imported (Init.x64_path h)
    else if Init.exists_ h (Init.x32_path h)
         then Init.Imported (Init.x32_path h)
         else Init.RaisedAssertionError (lit "could not find 7-zip executable").
Proof.
  intros Hmax Hn Hempty. unfold Init.import_module.
  fold (Init.x64_path h). fold (Init.x32_path h).
  rewrite Hmax, bit_length_word by (destruct Hn; subst; discriminate).
  replace (n - 1 + 1)%Z with n by lia.
  destruct Hn as [-> | ->]; simpl existsb; simpl negb; simpl Z.eqb;
    cbv iota; simpl andb.
  - rewrite Hempty. simpl negb. cbv iota. reflexivity.
  - destruct (Init.exists_ h (Init.x64_path h)) eqn:H64; simpl negb; cbv iota.
    + now rewrite H64.
    + reflexivity.
Qed.

(** X19 on a 32-bit POSIX host that has both executables. *)
Lemma X19_import_chooses_the_executable_witness :
  Init.import_module
    (Init.posix_host 32 [lit "/opt/py7z/7-zip/x64/7z.exe";
                         lit "/opt/py7z/7-zip/x32/7z.exe"])
  = Init.Imported (lit "/opt/py7z/7-zip/x32/7z.exe").
Proof.
  apply (@X19_import_chooses_the_executable
           (Init.posix_host 32 [lit "/opt/py7z/7-zip/x64/7z.exe";
                                lit "/opt/py7z/7-zip/x32/7z.exe"]) 32).
  - reflexivity.
  - left. reflexivity.
  - reflexivity.
Defined.
